(** * Neuro game SDK: the wrapper client, its registry and its dispatch

    A shallow embedding of [NeuroClientWrapper] (the class that extends
    [NeuroClient] with an action registry, schema validation, the handling
    of [actions/reregister_all] and the checked [forceActions]) and of the
    parts of [NeuroClient] it inherits: [sendMessage], [sendActionResult],
    [onAction], [connect], [disconnect] and the base [forceActions].

    JavaScript objects are records, arrays are lists, [undefined] is [None].
    Methods are computations in a state monad over the client object that
    can complete normally or throw.  What a method does to the outside world
    (frames handed to the socket, calls of the logging handler, console
    output, calls of handlers) is appended to a trace kept with the state. *)

From Stdlib Require Import String Ascii List ZArith Lia Bool DecimalString.
From stdpp Require Import base list.
Import ListNotations.

Local Open Scope string_scope.
Local Open Scope Z_scope.

(** ** Strings *)

(** The double quote and the line feed, which template literals of the
    source contain. *)
Definition dquote : string := String (ascii_of_nat 34) EmptyString.
Definition newline : string := String (ascii_of_nat 10) EmptyString.

(** [Array.prototype.join]. *)
Definition join (sep : string) (l : list string) : string := String.concat sep l.

(** [s.startsWith(p)] and [s.substring(n)]. *)
Definition startsWith (s p : string) : bool := String.prefix p s.
Definition substring_from (n : nat) (s : string) : string :=
  String.substring n (String.length s - n) s.

(** [s.includes(p)]: [p] occurs in [s]. *)
Fixpoint includes (s p : string) : bool :=
  String.prefix p s ||
  match s with
  | EmptyString => false
  | String _ s' => includes s' p
  end.

(** ** Values *)

(** JSON values, as [JSON.parse] returns them. *)
#[local] Unset Elimination Schemes.
Inductive JSON : Type :=
| JNull
| JBool (b : bool)
| JNum (n : Z)
| JStr (s : string)
| JArr (items : list JSON)
| JObj (fields : list (string * JSON)).
#[local] Set Elimination Schemes.

(** A JSON schema object: its own enumerable properties, in order. *)
Definition JSONSchema7Object := list (string * JSON).

(** [Object.keys(o)]. *)
Definition Object_keys (o : JSONSchema7Object) : list string := map fst o.

(** ** types.ts *)

Record Action : Type := mkAction {
  act_name : string;
  act_description : string;
  act_schema : option JSONSchema7Object
}.

Record ActionData : Type := mkActionData {
  ad_id : string;
  ad_name : string;
  ad_params : JSON
}.

Record ActionMessageData : Type := mkActionMessageData {
  amd_id : string;
  amd_name : string;
  amd_data : option string
}.

Record IncomingMessage : Type := mkIncomingMessage {
  in_command : string;
  in_data : option ActionMessageData
}.

Inductive ActionForcePriorityEnum : Type := LOW | MEDIUM | HIGH | CRITICAL.

Definition priority_value (p : ActionForcePriorityEnum) : string :=
  match p with
  | LOW => "low"
  | MEDIUM => "medium"
  | HIGH => "high"
  | CRITICAL => "critical"
  end.

Inductive LogLevel : Type := DEBUG | LOG | INFO | WARN | ERROR.

(** The [data] of an outgoing message.  [Arr] is the type of the [actions]
    array of a registration: a reference while the message is an object in
    memory, the listed actions once the message is serialised. *)
Inductive MessageData (Arr : Type) : Type :=
| ContextMessageData (message : string) (silent : option bool)
| RegisterActionsMessageData (actions : Arr)
| UnregisterActionsMessageData (action_names : list string)
| ForceActionsMessageData (state : option string) (query : string)
    (ephemeral_context : option bool)
    (priority : option ActionForcePriorityEnum)
    (action_names : list string)
| ActionResultMessageData (id : string) (success : bool)
    (message : option string).

Arguments ContextMessageData {Arr} message silent.
Arguments RegisterActionsMessageData {Arr} actions.
Arguments UnregisterActionsMessageData {Arr} action_names.
Arguments ForceActionsMessageData {Arr} state query ephemeral_context
  priority action_names.
Arguments ActionResultMessageData {Arr} id success message.

Record OutgoingMessage (Arr : Type) : Type := mkOutgoingMessage {
  out_command : string;
  out_game : string;
  out_data : option (MessageData Arr)
}.

Arguments mkOutgoingMessage {Arr} out_command out_game out_data.
Arguments out_command {Arr} o.
Arguments out_game {Arr} o.
Arguments out_data {Arr} o.

(** An [Action[]] value held by the program: an array of the caller, or the
    client's own [registeredActions] array (which [handleMessage] passes to
    [registerActions]). *)
Inductive ActionsRef : Type :=
| Fresh (actions : list Action)
| TheRegisteredActions.

(** A text frame on the wire: the message with every array written out. *)
Definition Frame := OutgoingMessage (list Action).

(** ** The transport and the handlers *)

(** [WebSocket.readyState]. *)
Inductive ReadyState : Type := CONNECTING | OPEN | CLOSING | CLOSED.

Definition readyState_value (r : ReadyState) : string :=
  match r with
  | CONNECTING => "0"
  | OPEN => "1"
  | CLOSING => "2"
  | CLOSED => "3"
  end.

Definition is_open (w : option ReadyState) : bool :=
  match w with
  | Some OPEN => true
  | _ => false
  end.

(** A member of [actionHandlers]: the method value
    [this.handleActionMessage] that the constructor of the wrapper pushes (a
    function detached from its receiver), or a callback of the host, named
    by a number. *)
Inductive ActionHandler : Type :=
| Detached_handleActionMessage
| HostHandler (k : nat).

(** ** The trace *)

Inductive Event : Type :=
| Logged (level : LogLevel) (message : string)
| Console (level : LogLevel) (args : list string)
| WsSend (frame : Frame)
| WsClose
| WsNew (url : string)
| OnConnected
| Invoked (handler : ActionHandler) (actionData : ActionData).

(** ** The client object *)

Record NeuroClientWrapper : Type := mkClient {
  ws : option ReadyState;
  game : string;
  url : string;
  actionHandlers : list ActionHandler;
  registeredActions : list Action;
  trace : list Event
}.

Definition set_ws (w : option ReadyState) (c : NeuroClientWrapper) :=
  mkClient w (game c) (url c) (actionHandlers c) (registeredActions c) (trace c).
Definition set_url (u : string) (c : NeuroClientWrapper) :=
  mkClient (ws c) (game c) u (actionHandlers c) (registeredActions c) (trace c).
Definition set_actionHandlers (hs : list ActionHandler) (c : NeuroClientWrapper) :=
  mkClient (ws c) (game c) (url c) hs (registeredActions c) (trace c).
Definition set_registeredActions (rs : list Action) (c : NeuroClientWrapper) :=
  mkClient (ws c) (game c) (url c) (actionHandlers c) rs (trace c).
Definition emit (e : Event) (c : NeuroClientWrapper) :=
  mkClient (ws c) (game c) (url c) (actionHandlers c) (registeredActions c)
    (trace c ++ [e]).

(** ** Computations *)

Inductive JsError : Type :=
| TypeError (message : string).

Inductive Completion (A : Type) : Type :=
| Normal (a : A)
| Throw (e : JsError)
| OutOfFuel.

Arguments Normal {A} a.
Arguments Throw {A} e.
Arguments OutOfFuel {A}.

Definition M (A : Type) : Type :=
  NeuroClientWrapper -> Completion A * NeuroClientWrapper.

Definition ret {A} (a : A) : M A := fun c => (Normal a, c).

Definition bind {A B} (m : M A) (k : A -> M B) : M B := fun c =>
  match m c with
  | (Normal a, c') => k a c'
  | (Throw e, c') => (Throw e, c')
  | (OutOfFuel, c') => (OutOfFuel, c')
  end.

Definition throw {A} (e : JsError) : M A := fun c => (Throw e, c).
Definition get {A} (f : NeuroClientWrapper -> A) : M A := fun c => (Normal (f c), c).
Definition modify (f : NeuroClientWrapper -> NeuroClientWrapper) : M unit :=
  fun c => (Normal tt, f c).

Declare Scope js_scope.
Delimit Scope js_scope with js.
Notation "'let*' x ':=' m 'in' k" := (bind m (fun x => k))
  (at level 10, x name, m at level 100, k at level 200) : js_scope.
Notation "m ';;' k" := (bind m (fun _ => k))
  (at level 100, k at level 200, right associativity) : js_scope.
Local Open Scope js_scope.

(** A call of the logging handler installed on the client (the default one
    prints to the console), and a direct call of a console method. *)
Definition loggingHandler (message : string) (level : LogLevel) : M unit :=
  modify (emit (Logged level message)).

Definition console (level : LogLevel) (args : list string) : M unit :=
  modify (emit (Console level args)).

(** ** Arrays *)

(** [arr.find(p)]: Stdlib's [find]. [arr.findIndex(p)]: the index of the
    first match, or -1. *)
Fixpoint findIndex {A} (p : A -> bool) (arr : list A) : Z :=
  match arr with
  | [] => -1
  | x :: rest =>
      if p x then 0
      else let i := findIndex p rest in if i =? -1 then -1 else i + 1
  end.

(** [arr[i]] for an integer [i]: [undefined] out of range, and so for a
    negative [i]. *)
Definition array_get {A} (arr : list A) (i : Z) : option A :=
  if i <? 0 then None else arr !! Z.to_nat i.

(** [arr.splice(i, 1)] for [0 <= i]. *)
Definition splice1 {A} (arr : list A) (i : Z) : list A :=
  delete (Z.to_nat i) arr.

(** The array a reference stands for, in the present state. *)
Definition deref (r : ActionsRef) (c : NeuroClientWrapper) : list Action :=
  match r with
  | Fresh l => l
  | TheRegisteredActions => registeredActions c
  end.

(** [JSON.stringify(message)], as far as the arrays of the message go. *)
Definition JSON_stringify (c : NeuroClientWrapper)
    (m : OutgoingMessage ActionsRef) : Frame :=
  mkOutgoingMessage (out_command m) (out_game m)
    (match out_data m with
     | None => None
     | Some (ContextMessageData t s) => Some (ContextMessageData t s)
     | Some (RegisterActionsMessageData r) =>
         Some (RegisterActionsMessageData (deref r c))
     | Some (UnregisterActionsMessageData ns) =>
         Some (UnregisterActionsMessageData ns)
     | Some (ForceActionsMessageData s q e p ns) =>
         Some (ForceActionsMessageData s q e p ns)
     | Some (ActionResultMessageData i s t) =>
         Some (ActionResultMessageData i s t)
     end).

(** ** External collaborators

    [JSON.parse] on the [data] string of an action ([inr] carries the
    message of the error it throws), [JSON.parse] on a whole frame typed as
    the source types it ([None] when it throws), and [validate] of the
    jsonschema package. *)

Record ValidationError : Type := mkValidationError { err_stack : string }.

Record ValidatorResult : Type := mkValidatorResult {
  vr_valid : bool;
  vr_errors : list ValidationError
}.

Class Externals : Type := {
  JSON_parse : string -> JSON + string;
  JSON_parse_message : string -> option IncomingMessage;
  validate : JSON -> JSONSchema7Object -> ValidatorResult
}.

(** ** NeuroClient (index.ts) *)

Module NeuroClient.

(** [connect]: a new socket, not yet open. *)
Definition connect : M unit :=
  let* u := get url in
  modify (fun c => emit (WsNew u) (set_ws (Some CONNECTING) c)).

Definition sendMessage (message : OutgoingMessage ActionsRef) : M unit :=
  let* w := get ws in
  match w with
  | Some OPEN => modify (fun c => emit (WsSend (JSON_stringify c message)) c)
  | Some r =>
      console ERROR
        ["[NeuroClient] WebSocket is not open. Ready state:"; readyState_value r]
  | None =>
      console ERROR
        ["[NeuroClient] WebSocket is not open. Ready state:";
         "No WebSocket instance"]
  end.

Definition sendStartup : M unit :=
  let* g := get game in
  sendMessage (mkOutgoingMessage "startup" g None).

(** The [onopen] callback installed by [connect]; the socket is open when
    it runs.  [onConnected] is the host's. *)
Definition ws_onopen : M unit :=
  modify (set_ws (Some OPEN));;
  console LOG ["[NeuroClient] Connected to Neuro-sama server."];;
  sendStartup;;
  modify (emit OnConnected).

Definition registerActions (actions : ActionsRef) : M unit :=
  let* g := get game in
  sendMessage
    (mkOutgoingMessage "actions/register" g
       (Some (RegisterActionsMessageData actions))).

Definition unregisterActions (actionNames : list string) : M unit :=
  let* g := get game in
  sendMessage
    (mkOutgoingMessage "actions/unregister" g
       (Some (UnregisterActionsMessageData actionNames))).

(** Default parameter values: an omitted ([undefined]) argument takes the
    default. *)
Definition forceActions (query : string) (actionNames : list string)
    (state : option string) (ephemeralContext : option bool)
    (priority : option ActionForcePriorityEnum) : M unit :=
  let ephemeralContext := default false ephemeralContext in
  let priority := default LOW priority in
  let* g := get game in
  sendMessage
    (mkOutgoingMessage "actions/force" g
       (Some (ForceActionsMessageData state query (Some ephemeralContext)
                (Some priority) actionNames))).

Definition sendActionResult (id : string) (success : bool)
    (messageText : option string) : M unit :=
  (if negb success
   then console WARN
          ["[NeuroClient] Empty messageText field even though success was false!"]
   else ret tt);;
  let* g := get game in
  sendMessage
    (mkOutgoingMessage "action/result" g
       (Some (ActionResultMessageData id success messageText))).

Definition onAction (handler : ActionHandler) : M unit :=
  modify (fun c => set_actionHandlers (actionHandlers c ++ [handler]) c).

(** [ws.close()] on an open socket: the socket is closing from then on;
    its close event comes later, from the transport. *)
Definition disconnect : M unit :=
  let* w := get ws in
  match w with
  | Some OPEN => modify (fun c => emit WsClose (set_ws (Some CLOSING) c))
  | _ => ret tt
  end.

End NeuroClient.

(** ** NeuroClientWrapper *)

(** The value of [this] in a call: the client, for [obj.method(...)], or
    [undefined], for a call of a function taken out of its object. *)
Inductive Receiver : Type := This | Undefined.

Definition undefined_property (prop : string) : JsError :=
  TypeError ("Cannot read properties of undefined (reading '" ++ prop ++ "')").

(** [this.prop], read or called. *)
Definition on_this {A} (this : Receiver) (prop : string) (m : M A) : M A :=
  match this with
  | This => m
  | Undefined => throw (undefined_property prop)
  end.

(** [for (const x of arr) body]. *)
Fixpoint for_of {A} (arr : list A) (body : A -> M unit) : M unit :=
  match arr with
  | [] => ret tt
  | x :: rest => body x;; for_of rest body
  end.

Definition name_is (n : string) (a : Action) : bool := String.eqb (act_name a) n.

Definition duplicate_message (knownActions : list string) : string :=
  "Duplicate action registered: " ++ dquote
  ++ join (dquote ++ ", " ++ dquote) knownActions ++ dquote ++ newline
  ++ "The Neuro server will ignore those registrations.".

Definition not_registered_message (unknownNames : list string) : string :=
  "Actions not registered: " ++ dquote
  ++ join (dquote ++ ", " ++ dquote) unknownNames ++ dquote ++ newline
  ++ "The Neuro server will ignore those unregistrations.".

Definition all_unknown_message : string :=
  "All specified actions are unknown to Neuro, the action force will be dropped.".

Definition unknown_in_force_message (unknownNames : list string) : string :=
  "Unknown actions specified in force: " ++ dquote
  ++ join (dquote ++ ", " ++ dquote) unknownNames ++ dquote
  ++ ". These actions will not be considered by Neuro.".

Definition unknown_action_message (name : string) : string :=
  "[NeuroClientWrapper] Unknown action: " ++ dquote ++ name ++ dquote.

Definition invalid_data_message (parse_error : string) : string :=
  "Invalid action data: " ++ parse_error.

(** The stacks of the validator's errors, without a leading [instance.]. *)
Definition messagesArray_of (errors : list ValidationError) : list string :=
  let messagesArray :=
    map (fun err =>
           if startsWith (err_stack err) "instance."
           then substring_from 9 (err_stack err)
           else err_stack err) errors in
  if (length messagesArray =? 0)%nat
  then messagesArray ++ ["Unknown schema validation error."]
  else messagesArray.

Definition schemaFailures_of (messagesArray : list string) : string :=
  "- " ++ join (newline ++ "- ") messagesArray.

(** The message of a failed validation.  It is one template literal, from
    its first character to its last: the quote marks and plus signs around
    [schemaFailures] are characters of the literal. *)
Definition validation_message (name : string) (schemaFailures : string) : string :=
  "[NeuroClientWrapper] Your inputs for the action " ++ dquote ++ name ++ dquote
  ++ " did not pass schema validation." ++ newline ++ newline
  ++ "' + schemaFailures + '" ++ newline ++ newline
  ++ "Please pay attention to the schema and the above errors if you choose to retry.".

Section Wrapper.

Context `{Externals}.

Definition constructor (url game : string) : NeuroClientWrapper :=
  let c := mkClient None game url [] [] [] in
  let c := snd (NeuroClient.connect c) in
  set_actionHandlers (actionHandlers c ++ [Detached_handleActionMessage]) c.

(** [handleActionMessage] from the lookup of the action on, for the
    [actionParams] it has by then; [call] runs one handler. *)
Definition dispatch_parsed (call : ActionHandler -> ActionData -> M unit)
    (this : Receiver) (data : ActionMessageData) (actionParams : JSON) : M unit :=
  let* registered := on_this this "registeredActions" (get registeredActions) in
  match List.find (name_is (amd_name data)) registered with
  | None =>
      on_this this "sendActionResult"
        (NeuroClient.sendActionResult (amd_id data) true
           (Some (unknown_action_message (amd_name data))))
  | Some action =>
      let schemaValidationResult :=
        match act_schema action with
        | Some schema =>
            if negb (length (Object_keys schema) =? 0)%nat
            then Some (validate actionParams schema)
            else None
        | None => None
        end in
      match schemaValidationResult with
      | Some (mkValidatorResult false errors) =>
          let messagesArray := messagesArray_of errors in
          let schemaFailures := schemaFailures_of messagesArray in
          let message := validation_message (amd_name data) schemaFailures in
          on_this this "sendActionResult"
            (NeuroClient.sendActionResult (amd_id data) false (Some message))
      | _ =>
          let* handlers := on_this this "actionHandlers" (get actionHandlers) in
          if (0 <? length handlers)%nat
          then for_of handlers
                 (fun handler =>
                    call handler
                      (mkActionData (amd_id data) (amd_name data) actionParams))
          else on_this this "loggingHandler"
                 (loggingHandler
                    "[NeuroClientWrapper] No action handlers registered." ERROR)
      end
  end.

(** The first step of [handleActionMessage]: [actionParams], or the
    message of the error [JSON.parse] threw.  A [data] that is absent or
    empty is falsy and leaves the empty object. *)
Definition parse_actionParams (data : ActionMessageData) : JSON + string :=
  match amd_data data with
  | Some (String ch rest) => JSON_parse (String ch rest)
  | _ => inl (JObj [])
  end.

(** [handleActionMessage], with the [this] of the call.  A handler that is
    the detached method is run as the method with an undefined [this], on
    the object the loop built, which has no [data].  A handler of the host
    is opaque: its call is recorded and returns. *)
Fixpoint handleActionMessage_fuel (fuel : nat) (this : Receiver)
    (data : ActionMessageData) : M unit :=
  match fuel with
  | O => fun c => (OutOfFuel, c)
  | S fuel' =>
      let call (handler : ActionHandler) (actionData : ActionData) : M unit :=
        modify (emit (Invoked handler actionData));;
        match handler with
        | HostHandler _ => ret tt
        | Detached_handleActionMessage =>
            handleActionMessage_fuel fuel' Undefined
              (mkActionMessageData (ad_id actionData) (ad_name actionData) None)
        end in
      match parse_actionParams data with
      | inl actionParams => dispatch_parsed call this data actionParams
      | inr error_message =>
          let errorMessage := invalid_data_message error_message in
          on_this this "sendActionResult"
            (NeuroClient.sendActionResult (amd_id data) false (Some errorMessage));;
          console ERROR ["[NeuroClientWrapper] " ++ errorMessage]
      end
  end.

(** The call of one handler by the loop of a [handleActionMessage] that
    has [fuel] levels left. *)
Definition call_handler (fuel : nat) (handler : ActionHandler)
    (actionData : ActionData) : M unit :=
  modify (emit (Invoked handler actionData));;
  match handler with
  | HostHandler _ => ret tt
  | Detached_handleActionMessage =>
      handleActionMessage_fuel fuel Undefined
        (mkActionMessageData (ad_id actionData) (ad_name actionData) None)
  end.

(** Two levels are all a call uses (see [handleActionMessage_fuel_enough]). *)
Definition handleActionMessage (data : ActionMessageData) : M unit :=
  handleActionMessage_fuel 2 This data.

Definition registerActions (actions : ActionsRef) : M unit :=
  let* arr := get (deref actions) in
  let* registered := get registeredActions in
  let knownActions :=
    map act_name
      (List.filter (fun a => match List.find (name_is (act_name a)) registered with
                        | Some _ => true
                        | None => false
                        end) arr) in
  (if negb (length knownActions =? 0)%nat
   then loggingHandler (duplicate_message knownActions) WARN
   else ret tt);;
  modify (fun c => set_registeredActions (registeredActions c ++ deref actions c) c);;
  let* g := get game in
  NeuroClient.sendMessage
    (mkOutgoingMessage "actions/register" g
       (Some (RegisterActionsMessageData actions))).

(** The loop of [unregisterActions], with [unknownNames] so far. *)
Fixpoint unregister_loop (actionNames unknownNames : list string)
    : M (list string) :=
  match actionNames with
  | [] => ret unknownNames
  | n :: rest =>
      let* registered := get registeredActions in
      let action := findIndex (name_is n) registered in
      if action =? -1
      then match array_get registered action with
           | Some a => unregister_loop rest (unknownNames ++ [act_name a])
           | None => throw (undefined_property "name")
           end
      else modify (set_registeredActions (splice1 registered action));;
           unregister_loop rest unknownNames
  end.

Definition unregisterActions (actionNames : list string) : M unit :=
  let* unknownNames := unregister_loop actionNames [] in
  (if negb (length unknownNames =? 0)%nat
   then loggingHandler (not_registered_message unknownNames) INFO
   else ret tt);;
  let* g := get game in
  NeuroClient.sendMessage
    (mkOutgoingMessage "actions/unregister" g
       (Some (UnregisterActionsMessageData actionNames))).

Definition forceActions (query : string) (actionNames : list string)
    (state : option string) (ephemeralContext : option bool)
    (priority : option ActionForcePriorityEnum) : M unit :=
  let* registered := get registeredActions in
  let unknownNames :=
    List.filter (fun name => match List.find (name_is name) registered with
                        | Some _ => false
                        | None => true
                        end) actionNames in
  (if (length unknownNames =? length actionNames)%nat
   then loggingHandler all_unknown_message ERROR
   else if (1 <? length unknownNames)%nat
        then loggingHandler (unknown_in_force_message unknownNames) WARN
        else ret tt);;
  let* g := get game in
  NeuroClient.sendMessage
    (mkOutgoingMessage "actions/force" g
       (Some (ForceActionsMessageData state query ephemeralContext priority
                actionNames))).

Definition sendContext (messageText : string) (silent : option bool) : M unit :=
  loggingHandler
    ("Sending " ++ (if default false silent then "silent " else "")
     ++ "context to Neuro") DEBUG;;
  let* g := get game in
  NeuroClient.sendMessage
    (mkOutgoingMessage "context" g (Some (ContextMessageData messageText silent))).

Definition reconnect (new_url : option string) : M unit :=
  NeuroClient.disconnect;;
  (match new_url with
   | Some (String ch rest) => modify (set_url (String ch rest))
   | _ => ret tt
   end);;
  NeuroClient.connect.

Definition handleMessage (data : string) : M unit :=
  match JSON_parse_message data with
  | None =>
      loggingHandler ("[NeuroClientWrapper] Invalid JSON received: " ++ data) ERROR
  | Some message =>
      if String.eqb (in_command message) "action"
      then match in_data message with
           | Some d => handleActionMessage d
           | None => throw (undefined_property "data")
           end
      else if String.eqb (in_command message) "actions/reregister_all"
      then registerActions TheRegisteredActions
      else loggingHandler
             ("[NeuroClientWrapper] Received unknown/unimplemented command: "
              ++ in_command message) WARN
  end.

(** The action has no schema to check, or [actionParams] pass it. *)
Definition passes_validation (action : Action) (actionParams : JSON) : bool :=
  match act_schema action with
  | Some schema =>
      if negb (length (Object_keys schema) =? 0)%nat
      then vr_valid (validate actionParams schema)
      else true
  | None => true
  end.

End Wrapper.

(** ** NeuroClient on its own (index.ts): incoming frames

    The methods of [NeuroClient] that the wrapper overrides, as an object
    of the base class runs them.  Such an object is the record above with
    an empty [registeredActions], which no method of the base class reads. *)

Module BaseClient.

Section WithExternals.

Context `{Externals}.

Definition constructor (url game : string) : NeuroClientWrapper :=
  snd (NeuroClient.connect (mkClient None game url [] [] [])).

Definition sendContext (messageText : string) (silent : option bool) : M unit :=
  let silent := default false silent in
  let* g := get game in
  NeuroClient.sendMessage
    (mkOutgoingMessage "context" g
       (Some (ContextMessageData messageText (Some silent)))).

Definition handleActionMessage (data : ActionMessageData) : M unit :=
  match parse_actionParams data with
  | inl actionParams =>
      let* handlers := get actionHandlers in
      if (0 <? length handlers)%nat
      then for_of handlers
             (fun handler =>
                call_handler 1 handler
                  (mkActionData (amd_id data) (amd_name data) actionParams))
      else console WARN ["[NeuroClient] No action handlers registered."]
  | inr error_message =>
      let errorMessage := invalid_data_message error_message in
      NeuroClient.sendActionResult (amd_id data) false (Some errorMessage);;
      console ERROR ["[NeuroClient] " ++ errorMessage]
  end.

Definition handleMessage (data : string) : M unit :=
  match JSON_parse_message data with
  | None => console ERROR ["[NeuroClient] Invalid JSON received:"; data]
  | Some message =>
      if String.eqb (in_command message) "action"
      then match in_data message with
           | Some d => handleActionMessage d
           | None => throw (undefined_property "data")
           end
      else console WARN
             ["[NeuroClient] Received unknown/unimplemented command:";
              in_command message]
  end.

End WithExternals.

End BaseClient.

(** The [onmessage] callback installed by [connect]: the text of the
    frame, or the empty text for a frame that is not text, goes to the
    [handleMessage] of the object. *)
Definition ws_onmessage (handleMessage : string -> M unit)
    (event_data : option string) : M unit :=
  let data := match event_data with
              | Some text => text
              | None => ""
              end in
  handleMessage data.

(** ** The class _wrapper (helper.ts): the methods that call themselves

    [sendContext] and [forceActions] of [_wrapper] call [this.sendContext]
    and [this.forceActions], which are the methods themselves; the client is
    never reached.  Each level of fuel is one call. *)

Module DraftWrapper.

Fixpoint sendContext (fuel : nat) (context : string) (silent : option bool)
    : M unit :=
  match fuel with
  | O => fun c => (OutOfFuel, c)
  | S fuel' =>
      let silent := default true silent in
      sendContext fuel' context (Some silent)
  end.

Fixpoint forceActions (fuel : nat) (query : string) (action_names : list string)
    (state : option string) (ephemeral_context : option bool)
    (priority : option ActionForcePriorityEnum) : M unit :=
  match fuel with
  | O => fun c => (OutOfFuel, c)
  | S fuel' =>
      let ephemeral_context := default false ephemeral_context in
      let priority := default LOW priority in
      forceActions fuel' query action_names state (Some ephemeral_context)
        (Some priority)
  end.

End DraftWrapper.

(** ** The calls a wrapper receives

    The operations of the host on a wrapper and the two events of the
    transport that run code of the client: the socket opens (which happens
    to a connecting socket only), and a frame arrives. *)

Inductive Call : Type :=
| Call_registerActions (actions : list Action)
| Call_unregisterActions (actionNames : list string)
| Call_forceActions (query : string) (actionNames : list string)
    (state : option string) (ephemeralContext : option bool)
    (priority : option ActionForcePriorityEnum)
| Call_sendContext (messageText : string) (silent : option bool)
| Call_sendActionResult (id : string) (success : bool) (messageText : option string)
| Call_onAction (k : nat)
| Call_disconnect
| Call_reconnect (url : option string)
| Socket_open
| Socket_message (event_data : option string).

Section Calls.

Context `{Externals}.

Definition perform (call : Call) : M unit :=
  match call with
  | Call_registerActions actions => registerActions (Fresh actions)
  | Call_unregisterActions actionNames => unregisterActions actionNames
  | Call_forceActions query actionNames state ephemeralContext priority =>
      forceActions query actionNames state ephemeralContext priority
  | Call_sendContext messageText silent => sendContext messageText silent
  | Call_sendActionResult id success messageText =>
      NeuroClient.sendActionResult id success messageText
  | Call_onAction k => NeuroClient.onAction (HostHandler k)
  | Call_disconnect => NeuroClient.disconnect
  | Call_reconnect url => reconnect url
  | Socket_open =>
      let* w := get ws in
      match w with
      | Some CONNECTING => NeuroClient.ws_onopen
      | _ => ret tt
      end
  | Socket_message event_data => ws_onmessage handleMessage event_data
  end.

(** The client after a sequence of calls; a call that throws leaves the
    client as it is at the throw. *)
Definition run_calls (calls : list Call) (c : NeuroClientWrapper)
    : NeuroClientWrapper :=
  fold_left (fun c call => snd (perform call c)) calls c.

End Calls.

(** ** A concrete environment for the examples

    A stand-in for the external collaborators, on the inputs the examples
    use: the parser knows a few texts, and the validator checks the
    [minimum] and [maximum] of the integer properties a schema lists. *)

Module Demo.

Definition quoted (s : string) : string := dquote ++ s ++ dquote.

(** The texts [{}], [{ "number": 5 }] and [{ "number": 99 }], without blanks. *)
Definition data_empty_object : string := "{}".
Definition data_number_5 : string := "{" ++ quoted "number" ++ ":5}".
Definition data_number_99 : string := "{" ++ quoted "number" ++ ":99}".

(** The frame of a reregistration request. *)
Definition frame_reregister_all : string :=
  "{" ++ quoted "command" ++ ":" ++ quoted "actions/reregister_all" ++ "}".

Definition parse (s : string) : JSON + string :=
  if String.eqb s data_empty_object then inl (JObj [])
  else if String.eqb s data_number_5 then inl (JObj [("number", JNum 5)])
  else if String.eqb s data_number_99 then inl (JObj [("number", JNum 99)])
  else if String.eqb s "" then inr "Unexpected end of JSON input"
  else inr "Unexpected token".

(** The frame of a request for the action [a], with the id 1 and no data. *)
Definition frame_action_a : string :=
  "{" ++ quoted "command" ++ ":" ++ quoted "action" ++ "," ++ quoted "data"
  ++ ":{" ++ quoted "id" ++ ":" ++ quoted "1" ++ "," ++ quoted "name" ++ ":"
  ++ quoted "a" ++ "}}".

Definition parse_message (s : string) : option IncomingMessage :=
  if String.eqb s frame_reregister_all
  then Some (mkIncomingMessage "actions/reregister_all" None)
  else if String.eqb s frame_action_a
  then Some (mkIncomingMessage "action" (Some (mkActionMessageData "1" "a" None)))
  else None.

Definition field (k : string) (o : list (string * JSON)) : option JSON :=
  match List.find (fun kv => String.eqb (fst kv) k) o with
  | Some kv => Some (snd kv)
  | None => None
  end.

Definition check_property (instance : list (string * JSON))
    (property : string * JSON) : list ValidationError :=
  match property, field (fst property) instance with
  | (p, JObj constraints), Some (JNum n) =>
      (match field "minimum" constraints with
       | Some (JNum lo) =>
           if n <? lo
           then [mkValidationError
                   ("instance." ++ p ++ " must be greater than or equal to "
                    ++ NilZero.string_of_int (Z.to_int lo))]
           else []
       | _ => []
       end)
      ++
      (match field "maximum" constraints with
       | Some (JNum hi) =>
           if hi <? n
           then [mkValidationError
                   ("instance." ++ p ++ " must be less than or equal to "
                    ++ NilZero.string_of_int (Z.to_int hi))]
           else []
       | _ => []
       end)
  | _, _ => []
  end.

Definition check (instance : JSON) (schema : JSONSchema7Object) : ValidatorResult :=
  let errors :=
    match instance, field "properties" schema with
    | JObj fields, Some (JObj properties) =>
        concat (map (check_property fields) properties)
    | _, _ => []
    end in
  mkValidatorResult (match errors with [] => true | _ => false end) errors.

Definition externals : Externals :=
  {| JSON_parse := parse;
     JSON_parse_message := parse_message;
     validate := check |}.

(** The action of the example page, and two plain ones. *)
Definition guess_number : Action :=
  mkAction "guess_number" "Guess the number between 1 and 10."
    (Some [("type", JStr "object");
           ("properties",
            JObj [("number",
                   JObj [("type", JStr "integer");
                         ("minimum", JNum 1); ("maximum", JNum 10)])])]).

Definition action_a : Action := mkAction "a" "the first action" None.
Definition action_b : Action := mkAction "b" "the second action" None.

(** A wrapper as the host gets it: constructed, and opened by the
    transport. *)
Definition opened : NeuroClientWrapper :=
  snd (NeuroClient.ws_onopen (constructor "ws://localhost:8000" "Guess the Number")).

(** The client after these calls, one after the other. *)
Definition after (calls : list (M unit)) (c : NeuroClientWrapper)
    : NeuroClientWrapper :=
  fold_left (fun c call => snd (call c)) calls c.

End Demo.

(** ** Vocabulary of the statements *)

(** [name] has an entry in the registry. *)
Definition is_registered (registered : list Action) (name : string) : bool :=
  match List.find (name_is name) registered with
  | Some _ => true
  | None => false
  end.

(** The names [registerActions] reports: those of the entries of the batch
    whose name has an entry in the registry, in the order of the batch. *)
Definition knownActions_of (registered actions : list Action) : list string :=
  map act_name (List.filter (fun a => is_registered registered (act_name a)) actions).

(** The names [forceActions] finds unknown, in the order requested. *)
Definition unknownNames_of (registered : list Action) (actionNames : list string)
    : list string :=
  List.filter (fun name => negb (is_registered registered name)) actionNames.

(** The number of [ws.close()] calls in a trace. *)
Definition close_calls (t : list Event) : nat :=
  length (List.filter (fun e => match e with WsClose => true | _ => false end) t).

(** The frames of a trace, the calls of the logging handler at one level,
    and the handlers called, each in order. *)
Definition frames_of (t : list Event) : list Frame :=
  concat (map (fun e => match e with WsSend f => [f] | _ => [] end) t).

Definition LogLevel_eqb (l l' : LogLevel) : bool :=
  match l, l' with
  | DEBUG, DEBUG | LOG, LOG | INFO, INFO | WARN, WARN | ERROR, ERROR => true
  | _, _ => false
  end.

Definition logged_at (level : LogLevel) (t : list Event) : list string :=
  concat (map (fun e => match e with
                        | Logged l m => if LogLevel_eqb l level then [m] else []
                        | _ => []
                        end) t).

Definition invoked_of (t : list Event) : list (ActionHandler * ActionData) :=
  concat (map (fun e => match e with Invoked h d => [(h, d)] | _ => [] end) t).

(** A client with more events at the end of its trace. *)
Definition emit_all (events : list Event) (c : NeuroClientWrapper) : NeuroClientWrapper :=
  mkClient (ws c) (game c) (url c) (actionHandlers c) (registeredActions c)
    (trace c ++ events).

Definition is_detached (h : ActionHandler) : bool :=
  match h with
  | Detached_handleActionMessage => true
  | HostHandler _ => false
  end.

(** The handlers the loop of [handleActionMessage] gets to call: those up
    to the first detached method, that one included. *)
Fixpoint called_handlers (handlers : list ActionHandler) : list ActionHandler :=
  match handlers with
  | [] => []
  | h :: rest => if is_detached h then [h] else h :: called_handlers rest
  end.

(** The frame of [sendActionResult], and what the method writes to the
    console before it. *)
Definition result_frame (game id : string) (success : bool) (message : string)
    : Frame :=
  mkOutgoingMessage "action/result" game
    (Some (ActionResultMessageData id success (Some message))).

Definition empty_messageText_warning : Event :=
  Console WARN
    ["[NeuroClient] Empty messageText field even though success was false!"].

(** An event that an operation other than a connection operation may add
    for a client in the state [c]: no socket is made or closed, and a frame
    goes out on an open socket only, under the game of the client. *)
Definition event_ok (c : NeuroClientWrapper) (e : Event) : Prop :=
  match e with
  | WsSend f => is_open (ws c) = true /\ out_game f = game c
  | WsClose | WsNew _ | OnConnected => False
  | Logged _ _ | Console _ _ | Invoked _ _ => True
  end.

(** A computation that leaves the socket, the game, the url and the
    handlers as they are, and adds such events only. *)
Definition steady {A} (m : M A) : Prop :=
  forall c,
    ws (snd (m c)) = ws c
    /\ game (snd (m c)) = game c
    /\ url (snd (m c)) = url c
    /\ actionHandlers (snd (m c)) = actionHandlers c
    /\ exists events,
         trace (snd (m c)) = (trace c ++ events)%list
         /\ Forall (event_ok c) events.

(** The frame that announces the game, and the callbacks the calls of a
    sequence hand to [onAction], in order. *)
Definition startup_frame (game : string) : Frame :=
  mkOutgoingMessage "startup" game None.

Definition onAction_keys (calls : list Call) : list nat :=
  concat (map (fun call => match call with
                           | Call_onAction k => [k]
                           | _ => []
                           end) calls).

(** What holds of a client of the game [g] from its construction on: it
    keeps its game, every frame it sent carries it, the first frame it sent
    is the startup frame, and its socket is open only if it sent one. *)
Definition announced (g : string) (c : NeuroClientWrapper) : Prop :=
  game c = g
  /\ Forall (fun f => out_game f = g) (frames_of (trace c))
  /\ (frames_of (trace c) = []
      \/ exists rest, frames_of (trace c) = startup_frame g :: rest)
  /\ (frames_of (trace c) = [] -> is_open (ws c) = false).

(** The registry without the entries of these names. *)
Definition without (names : list string) (registered : list Action) : list Action :=
  List.filter (fun a => negb (existsb (String.eqb (act_name a)) names)) registered.


(** * Properties *)

Local Open Scope list_scope.

(** ** Arrays and the monad *)

Lemma find_app_found {A} (p : A -> bool) (l l' : list A) (a : A) :
  List.find p l = Some a -> List.find p (l ++ l') = Some a.
Proof.
  induction l as [|x l IH]; simpl; [discriminate|].
  destruct (p x); auto.
Qed.

Lemma findIndex_range {A} (p : A -> bool) (l : list A) :
  findIndex p l = -1 \/ 0 <= findIndex p l < Z.of_nat (length l).
Proof.
  induction l as [|x l IH]; [now left|].
  cbn [findIndex length]. destruct (p x); [right; lia|].
  destruct (Z.eqb_spec (findIndex p l) (-1)) as [E|E]; [now left|right; lia].
Qed.

Lemma findIndex_absent {A} (p : A -> bool) (l : list A) :
  findIndex p l = -1 <-> List.find p l = None.
Proof.
  induction l as [|x l IH]; [simpl; tauto|].
  cbn [findIndex List.find]. destruct (p x); [split; [lia|discriminate]|].
  destruct (Z.eqb_spec (findIndex p l) (-1)) as [E|E]; [tauto|].
  pose proof (findIndex_range p l). split; [lia|]. intros F. tauto.
Qed.

Lemma find_delete_absent {A} (p : A -> bool) (l : list A) (i : nat) :
  List.find p l = None -> List.find p (delete i l) = None.
Proof.
  revert i. induction l as [|x l IH]; intros i; simpl; [now destruct i|].
  destruct (p x) eqn:E; [discriminate|].
  intros F. destruct i as [|i]; simpl; [exact F|].
  rewrite E. now apply IH.
Qed.

(** A send on an open socket puts the serialised message on the wire. *)
Lemma sendMessage_open (m : OutgoingMessage ActionsRef) (c : NeuroClientWrapper) :
  ws c = Some OPEN ->
  NeuroClient.sendMessage m c = (Normal tt, emit (WsSend (JSON_stringify c m)) c).
Proof.
  intros Hopen. unfold NeuroClient.sendMessage, bind, get, modify.
  now rewrite Hopen.
Qed.

(** A send on anything else writes to the console and drops the message. *)
Lemma sendMessage_not_open (m : OutgoingMessage ActionsRef) (c : NeuroClientWrapper) :
  is_open (ws c) = false ->
  exists args, NeuroClient.sendMessage m c = (Normal tt, emit (Console ERROR args) c).
Proof.
  intros Hclosed. unfold NeuroClient.sendMessage, bind, get, console, modify.
  destruct (ws c) as [[]|]; simpl in Hclosed; try discriminate; eauto.
Qed.

(** ** Connection Manager: disconnect *)

Lemma close_calls_app (t t' : list Event) :
  close_calls (t ++ t') = (close_calls t + close_calls t')%nat.
Proof. unfold close_calls. now rewrite List.filter_app, length_app. Qed.

(** C8. [disconnect] never throws; on a socket that is not open it changes
    nothing and calls nothing; on an open socket it calls [close] once and
    leaves the socket closing; a second [disconnect] right after the first
    is such a no-op, so that two calls in a row make at most one [close]
    call and have the effect of one call. *)
Theorem disconnect_idempotent (c : NeuroClientWrapper) :
  fst (NeuroClient.disconnect c) = Normal tt
  /\ (is_open (ws c) = false -> NeuroClient.disconnect c = (Normal tt, c))
  /\ (is_open (ws c) = true ->
      snd (NeuroClient.disconnect c) = emit WsClose (set_ws (Some CLOSING) c))
  /\ NeuroClient.disconnect (snd (NeuroClient.disconnect c))
     = (Normal tt, snd (NeuroClient.disconnect c))
  /\ (close_calls (trace (snd (NeuroClient.disconnect (snd (NeuroClient.disconnect c)))))
      <= close_calls (trace c) + 1)%nat.
Proof.
  unfold NeuroClient.disconnect, bind, get, modify, ret.
  destruct c as [[[]|] g u hs rs t]; simpl; repeat split;
    try discriminate; try reflexivity; try lia.
  rewrite close_calls_app. cbv [close_calls List.filter length]. lia.
Qed.

(** [reconnect] tears an open socket down with one [close] call and makes
    a new one; on a socket that is not open it only makes the new one. *)
Lemma reconnect_effect (c : NeuroClientWrapper) :
  reconnect None c =
    (Normal tt,
     if is_open (ws c)
     then emit (WsNew (url c)) (set_ws (Some CONNECTING)
            (emit WsClose (set_ws (Some CLOSING) c)))
     else emit (WsNew (url c)) (set_ws (Some CONNECTING) c)).
Proof. destruct c as [[[]|] g u hs rs t]; reflexivity. Qed.

(** ** Action Registry: registerActions *)

Lemma is_registered_app (registered more : list Action) (name : string) :
  is_registered registered name = true ->
  List.find (name_is name) (registered ++ more) = List.find (name_is name) registered.
Proof.
  unfold is_registered. destruct (List.find (name_is name) registered) eqn:F;
    [|discriminate].
  intros _. now apply find_app_found.
Qed.

Lemma knownActions_of_spec (registered actions : list Action) (name : string) :
  In name (knownActions_of registered actions) <->
  exists a, In a actions /\ act_name a = name /\ is_registered registered name = true.
Proof.
  unfold knownActions_of. rewrite in_map_iff. split.
  - intros (a & <- & Ha). apply List.filter_In in Ha. destruct Ha. eauto.
  - intros (a & Ha & <- & Hr). exists a. split; [reflexivity|].
    apply List.filter_In. auto.
Qed.

(** The monad and the record fields, unfolded; the message texts stay. *)
Ltac unfold_monad :=
  unfold bind, get, modify, ret, throw, loggingHandler, console, on_this.
Ltac fields :=
  unfold emit, set_ws, set_url, set_actionHandlers, set_registeredActions,
    JSON_stringify, deref;
  cbn [ws game url actionHandlers registeredActions trace
       out_command out_game out_data
       fst snd negb Nat.eqb Nat.ltb Nat.leb length].
Ltac run := repeat (unfold_monad; fields).

(** What [registerActions] does with an array of the caller. *)
Lemma registerActions_fresh (c : NeuroClientWrapper) (actions : list Action) :
  ws c = Some OPEN ->
  registerActions (Fresh actions) c =
    (Normal tt,
     mkClient (ws c) (game c) (url c) (actionHandlers c)
       (registeredActions c ++ actions)
       (trace c
        ++ match knownActions_of (registeredActions c) actions with
           | [] => []
           | known => [Logged WARN (duplicate_message known)]
           end
        ++ [WsSend (mkOutgoingMessage "actions/register" (game c)
                      (Some (RegisterActionsMessageData actions)))])).
Proof.
  intros Hopen. destruct c as [w g u hs rs t]. simpl in Hopen. subst w.
  cbn [ws game url actionHandlers registeredActions trace].
  set (known := knownActions_of rs actions).
  assert (Hk : map act_name
                 (List.filter
                    (fun a => match List.find (name_is (act_name a)) rs with
                              | Some _ => true
                              | None => false
                              end) actions) = known) by reflexivity.
  unfold registerActions, bind, get.
  cbn [deref registeredActions]. rewrite Hk. clearbody known. clear Hk.
  unfold NeuroClient.sendMessage.
  destruct known as [|k ks]; run; [reflexivity|].
  now rewrite <- app_assoc.
Qed.

(** C1, as the code has it.  The registry is an array that
    [registerActions] appends the whole batch to, so that a name can have
    several entries; a lookup by name keeps finding the entry it found
    before.  On an open socket, when the batch has an entry whose name is
    already registered, the call logs one WARN, which names the entries of
    the batch whose names were registered (and only those), and then sends
    one [actions/register] frame that lists every action of the batch. *)
Theorem registerActions_appends_batch (c : NeuroClientWrapper) (actions : list Action) :
  ws c = Some OPEN ->
  (exists a, In a actions /\ is_registered (registeredActions c) (act_name a) = true) ->
  let known := knownActions_of (registeredActions c) actions in
  registerActions (Fresh actions) c =
    (Normal tt,
     mkClient (ws c) (game c) (url c) (actionHandlers c)
       (registeredActions c ++ actions)
       (trace c
        ++ [Logged WARN (duplicate_message known);
            WsSend (mkOutgoingMessage "actions/register" (game c)
                      (Some (RegisterActionsMessageData actions)))]))
  /\ (forall name,
        In name known <->
        exists a, In a actions /\ act_name a = name
                  /\ is_registered (registeredActions c) name = true)
  /\ (forall name,
        is_registered (registeredActions c) name = true ->
        List.find (name_is name) (registeredActions c ++ actions)
        = List.find (name_is name) (registeredActions c)).
Proof.
  intros Hopen (a & Ha & Hreg) known. repeat split.
  - rewrite registerActions_fresh by assumption. fold known.
    assert (Hin : In (act_name a) known)
      by (apply knownActions_of_spec; eauto).
    destruct known as [|k ks]; [destruct Hin|reflexivity].
  - now apply knownActions_of_spec.
  - now apply knownActions_of_spec.
  - intros name Hname. now apply is_registered_app.
Qed.

(** A registry with the action [a], a batch with [a] again and [b]. *)
Lemma registerActions_appends_batch_witness :
  let c := Demo.after [registerActions (Fresh [Demo.action_a])] Demo.opened in
  registeredActions (snd (registerActions (Fresh [Demo.action_a; Demo.action_b]) c))
  = [Demo.action_a; Demo.action_a; Demo.action_b]
  /\ logged_at WARN (trace (snd (registerActions (Fresh [Demo.action_a; Demo.action_b]) c)))
     = [duplicate_message ["a"]].
Proof.
  intros c.
  assert (Hopen : ws c = Some OPEN) by reflexivity.
  assert (Hdup : exists a, In a [Demo.action_a; Demo.action_b]
                           /\ is_registered (registeredActions c) (act_name a) = true)
    by (exists Demo.action_a; split; [now left|reflexivity]).
  destruct (registerActions_appends_batch c [Demo.action_a; Demo.action_b] Hopen Hdup)
    as (Hrun & _ & _).
  rewrite Hrun. split; reflexivity.
Defined.

(** C1, as the specification states it, fails: registering the action [a]
    twice leaves two entries named [a] in the registry. *)
Lemma registerActions_keeps_both_entries :
  map act_name
    (registeredActions
       (Demo.after [registerActions (Fresh [Demo.action_a]);
                    registerActions (Fresh [Demo.action_a])] Demo.opened))
  = ["a"; "a"]
  /\ (NoDup (map act_name
              (registeredActions
                 (Demo.after [registerActions (Fresh [Demo.action_a]);
                              registerActions (Fresh [Demo.action_a])] Demo.opened)))
      -> False).
Proof.
  split; [reflexivity|].
  intros Hnodup. cbn in Hnodup. inversion Hnodup as [|x l Hnotin _]; subst.
  apply Hnotin. now left.
Qed.

(** ** Action Registry: reregister_all *)

(** What [registerActions] does with the registry array itself, which is
    how [handleMessage] calls it: the array is appended to itself, every
    name it holds is reported as a duplicate, and the frame lists the array
    as it is when the message is serialised. *)
Lemma registerActions_alias (c : NeuroClientWrapper) :
  ws c = Some OPEN ->
  registerActions TheRegisteredActions c =
    (Normal tt,
     mkClient (ws c) (game c) (url c) (actionHandlers c)
       (registeredActions c ++ registeredActions c)
       (trace c
        ++ match knownActions_of (registeredActions c) (registeredActions c) with
           | [] => []
           | known => [Logged WARN (duplicate_message known)]
           end
        ++ [WsSend (mkOutgoingMessage "actions/register" (game c)
                      (Some (RegisterActionsMessageData
                               (registeredActions c ++ registeredActions c)%list)))])).
Proof.
  intros Hopen. destruct c as [w g u hs rs t]. simpl in Hopen. subst w.
  cbn [ws game url actionHandlers registeredActions trace].
  set (known := knownActions_of rs rs).
  assert (Hk : map act_name
                 (List.filter
                    (fun a => match List.find (name_is (act_name a)) rs with
                              | Some _ => true
                              | None => false
                              end) rs) = known) by reflexivity.
  unfold registerActions, bind, get.
  cbn [deref registeredActions]. rewrite Hk. clearbody known. clear Hk.
  unfold NeuroClient.sendMessage.
  destruct known as [|k ks]; run; [reflexivity|].
  now rewrite <- app_assoc.
Qed.

Lemma name_is_own (a : Action) : name_is (act_name a) a = true.
Proof. unfold name_is. apply String.eqb_refl. Qed.

Lemma is_registered_member (registered : list Action) (a : Action) :
  In a registered -> is_registered registered (act_name a) = true.
Proof.
  intros Ha. unfold is_registered.
  destruct (List.find (name_is (act_name a)) registered) eqn:F; [reflexivity|].
  pose proof (List.find_none _ _ F a Ha) as Hno.
  now rewrite name_is_own in Hno.
Qed.

(** Every name of the registry is a duplicate of itself. *)
Lemma knownActions_of_self (registered : list Action) :
  knownActions_of registered registered = map act_name registered.
Proof.
  unfold knownActions_of. f_equal.
  apply List.forallb_filter_id. apply List.forallb_forall.
  intros a Ha. now apply is_registered_member.
Qed.

(** On any registry that is not empty, a reregistration request doubles the
    registry and logs a WARN that names every registered action. *)
Lemma reregister_all_doubles `{Externals} (c : NeuroClientWrapper) (data : string)
    (a : Action) (rest : list Action) :
  ws c = Some OPEN ->
  JSON_parse_message data = Some (mkIncomingMessage "actions/reregister_all" None) ->
  registeredActions c = a :: rest ->
  handleMessage data c =
    (Normal tt,
     mkClient (ws c) (game c) (url c) (actionHandlers c)
       (registeredActions c ++ registeredActions c)
       (trace c
        ++ [Logged WARN (duplicate_message (map act_name (registeredActions c)));
            WsSend (mkOutgoingMessage "actions/register" (game c)
                      (Some (RegisterActionsMessageData
                               (registeredActions c ++ registeredActions c)%list)))])).
Proof.
  intros Hopen Hparse Hregs. unfold handleMessage. rewrite Hparse.
  cbn [in_command in_data String.eqb Ascii.eqb Bool.eqb].
  rewrite registerActions_alias by assumption.
  rewrite knownActions_of_self, Hregs. reflexivity.
Qed.

(** C2, at the failing input: the registry holds the one action [a], the
    socket is open, and the frame of an [actions/reregister_all] request
    arrives.  One WARN about the duplicate [a] is logged, the registry holds
    [a] twice afterwards, and the frame sent lists [a] twice. *)
Theorem reregister_all_duplicates_registry :
  let c := Demo.after [registerActions (Fresh [Demo.action_a])] Demo.opened in
  let r := @handleMessage Demo.externals Demo.frame_reregister_all c in
  registeredActions c = [Demo.action_a]
  /\ fst r = Normal tt
  /\ registeredActions (snd r) = [Demo.action_a; Demo.action_a]
  /\ trace (snd r)
     = trace c
       ++ [Logged WARN (duplicate_message ["a"]);
           WsSend (mkOutgoingMessage "actions/register" "Guess the Number"
                     (Some (RegisterActionsMessageData
                              [Demo.action_a; Demo.action_a])))].
Proof. repeat split. Qed.

(** On an empty registry the request does what the specification says. *)
Lemma reregister_all_empty `{Externals} (c : NeuroClientWrapper) (data : string) :
  ws c = Some OPEN ->
  JSON_parse_message data = Some (mkIncomingMessage "actions/reregister_all" None) ->
  registeredActions c = [] ->
  handleMessage data c =
    (Normal tt,
     emit (WsSend (mkOutgoingMessage "actions/register" (game c)
                     (Some (RegisterActionsMessageData [])))) c).
Proof.
  intros Hopen Hparse Hregs. unfold handleMessage. rewrite Hparse.
  cbn [in_command in_data String.eqb Ascii.eqb Bool.eqb].
  rewrite registerActions_alias by assumption.
  destruct c as [w g u hs rs t]. simpl in *. subst. reflexivity.
Qed.

(** ** Action Registry: unregisterActions *)

(** One turn of the loop: the element read at index -1 is undefined, so
    that the branch for an unknown name always throws. *)
Lemma unregister_loop_cons (n : string) (rest unknownNames : list string)
    (c : NeuroClientWrapper) :
  unregister_loop (n :: rest) unknownNames c =
    if findIndex (name_is n) (registeredActions c) =? -1
    then (Throw (undefined_property "name"), c)
    else unregister_loop rest unknownNames
           (set_registeredActions
              (splice1 (registeredActions c)
                 (findIndex (name_is n) (registeredActions c))) c).
Proof.
  cbn [unregister_loop]. unfold bind, get, modify.
  destruct (Z.eqb_spec (findIndex (name_is n) (registeredActions c)) (-1)) as [E|E];
    [|reflexivity].
  rewrite E. reflexivity.
Qed.

(** The loop leaves the socket and the trace alone. *)
Lemma unregister_loop_silent (actionNames unknownNames : list string)
    (c : NeuroClientWrapper) :
  ws (snd (unregister_loop actionNames unknownNames c)) = ws c
  /\ trace (snd (unregister_loop actionNames unknownNames c)) = trace c.
Proof.
  revert unknownNames c.
  induction actionNames as [|n rest IH]; intros unknownNames c; [now split|].
  rewrite unregister_loop_cons.
  destruct (findIndex (name_is n) (registeredActions c) =? -1); [now split|].
  destruct (IH unknownNames
              (set_registeredActions
                 (splice1 (registeredActions c)
                    (findIndex (name_is n) (registeredActions c))) c))
    as [IHws IHtrace].
  now rewrite IHws, IHtrace.
Qed.

(** A requested name without an entry makes the loop throw, at the first
    such name. *)
Lemma unregister_loop_absent_throws (actionNames unknownNames : list string)
    (c : NeuroClientWrapper) :
  (exists n, In n actionNames /\ is_registered (registeredActions c) n = false) ->
  fst (unregister_loop actionNames unknownNames c) = Throw (undefined_property "name").
Proof.
  revert unknownNames c.
  induction actionNames as [|n0 rest IH]; intros unknownNames c (n & Hin & Habs);
    [destruct Hin|].
  rewrite unregister_loop_cons.
  destruct (Z.eqb_spec (findIndex (name_is n0) (registeredActions c)) (-1)) as [E|E];
    [reflexivity|].
  apply IH.
  assert (Hfound : is_registered (registeredActions c) n0 = true).
  { unfold is_registered.
    destruct (List.find (name_is n0) (registeredActions c)) eqn:F; [reflexivity|].
    apply findIndex_absent in F. contradiction. }
  destruct Hin as [<-|Hin]; [congruence|].
  exists n. split; [assumption|].
  unfold is_registered in *. unfold set_registeredActions. cbn [registeredActions].
  destruct (List.find (name_is n) (registeredActions c)) eqn:F; [discriminate|].
  unfold splice1. now rewrite find_delete_absent.
Qed.

(** Whenever a requested name has no entry, [unregisterActions] throws a
    TypeError, having logged and sent nothing. *)
Lemma unregisterActions_absent_throws (actionNames : list string)
    (c : NeuroClientWrapper) :
  (exists n, In n actionNames /\ is_registered (registeredActions c) n = false) ->
  fst (unregisterActions actionNames c) = Throw (undefined_property "name")
  /\ trace (snd (unregisterActions actionNames c)) = trace c.
Proof.
  intros Habs. unfold unregisterActions, bind.
  pose proof (unregister_loop_absent_throws actionNames [] c Habs) as Hthrow.
  pose proof (unregister_loop_silent actionNames [] c) as [_ Htrace].
  destruct (unregister_loop actionNames [] c) as [r c']. cbn [fst snd] in *.
  subst r. now split.
Qed.

(** C3, at the failing input: the registry holds the action [a], the
    socket is open, and [unregisterActions] is called with the names [a] and
    [ghost].  The call throws a TypeError after it has removed [a]: no INFO
    is logged and no [actions/unregister] frame is sent. *)
Theorem unregisterActions_unknown_name_throws :
  let c := Demo.after [registerActions (Fresh [Demo.action_a])] Demo.opened in
  let r := unregisterActions ["a"; "ghost"] c in
  ws c = Some OPEN
  /\ registeredActions c = [Demo.action_a]
  /\ fst r = Throw (TypeError "Cannot read properties of undefined (reading 'name')")
  /\ registeredActions (snd r) = []
  /\ trace (snd r) = trace c
  /\ logged_at INFO (trace (snd r)) = []
  /\ List.filter (fun f => String.eqb (out_command f) "actions/unregister")
       (frames_of (trace (snd r))) = [].
Proof. repeat split. Qed.

(** With every requested name registered, the call does what the
    specification says. *)
Lemma unregisterActions_all_known_example :
  let c := Demo.after [registerActions (Fresh [Demo.action_a; Demo.action_b])]
             Demo.opened in
  unregisterActions ["a"] c
  = (Normal tt,
     emit (WsSend (mkOutgoingMessage "actions/unregister" "Guess the Number"
                     (Some (UnregisterActionsMessageData ["a"]))))
       (set_registeredActions [Demo.action_b] c)).
Proof. reflexivity. Qed.

(** ** Force-Action Controller *)

(** What [forceActions] of the wrapper does on an open socket. *)
Lemma forceActions_open (c : NeuroClientWrapper) (query : string)
    (actionNames : list string) (state : option string)
    (ephemeralContext : option bool) (priority : option ActionForcePriorityEnum) :
  ws c = Some OPEN ->
  let unknownNames := unknownNames_of (registeredActions c) actionNames in
  forceActions query actionNames state ephemeralContext priority c =
    (Normal tt,
     mkClient (ws c) (game c) (url c) (actionHandlers c) (registeredActions c)
       (trace c
        ++ (if (length unknownNames =? length actionNames)%nat
            then [Logged ERROR all_unknown_message]
            else if (1 <? length unknownNames)%nat
                 then [Logged WARN (unknown_in_force_message unknownNames)]
                 else [])
        ++ [WsSend (mkOutgoingMessage "actions/force" (game c)
                      (Some (ForceActionsMessageData state query ephemeralContext
                               priority actionNames)))])).
Proof.
  intros Hopen unknownNames. destruct c as [w g u hs rs t]. simpl in Hopen. subst w.
  cbn [ws game url actionHandlers registeredActions trace] in *.
  assert (Hu : List.filter
                 (fun name => match List.find (name_is name) rs with
                              | Some _ => false
                              | None => true
                              end) actionNames = unknownNames).
  { unfold unknownNames, unknownNames_of. apply List.filter_ext.
    intros name. unfold is_registered.
    now destruct (List.find (name_is name) rs). }
  unfold forceActions, bind at 1, get at 1.
  cbn [registeredActions]. rewrite Hu. clearbody unknownNames. clear Hu.
  unfold NeuroClient.sendMessage.
  destruct (length unknownNames =? length actionNames)%nat;
    [|destruct (1 <? length unknownNames)%nat]; run;
    rewrite <- ?app_assoc; reflexivity.
Qed.

(** With one unknown name among several requested, nothing is logged. *)
Lemma forceActions_one_unknown_silent (c : NeuroClientWrapper) (query : string)
    (actionNames : list string) (state : option string)
    (ephemeralContext : option bool) (priority : option ActionForcePriorityEnum)
    (unknown : string) :
  ws c = Some OPEN ->
  unknownNames_of (registeredActions c) actionNames = [unknown] ->
  (1 < length actionNames)%nat ->
  forceActions query actionNames state ephemeralContext priority c =
    (Normal tt,
     emit (WsSend (mkOutgoingMessage "actions/force" (game c)
                     (Some (ForceActionsMessageData state query ephemeralContext
                              priority actionNames)))) c).
Proof.
  intros Hopen Hone Hseveral. rewrite forceActions_open by assumption.
  rewrite Hone. cbn [length].
  destruct (Nat.eqb_spec 1 (length actionNames)) as [E|E]; [lia|].
  reflexivity.
Qed.

(** C5, at the failing input: only [a] is registered, the socket is open,
    and [forceActions] is called with the query [pick one] and the names [a]
    and [b].  The frame carries both names, and no WARN is logged. *)
Theorem forceActions_one_unknown_no_warn :
  let c := Demo.after [registerActions (Fresh [Demo.action_a])] Demo.opened in
  let r := forceActions "pick one" ["a"; "b"] None None None c in
  unknownNames_of (registeredActions c) ["a"; "b"] = ["b"]
  /\ fst r = Normal tt
  /\ trace (snd r)
     = trace c
       ++ [WsSend (mkOutgoingMessage "actions/force" "Guess the Number"
                     (Some (ForceActionsMessageData None "pick one" None None
                              ["a"; "b"])))]
  /\ logged_at WARN (trace (snd r)) = logged_at WARN (trace c)
  /\ logged_at WARN (trace (snd r)) = [].
Proof. repeat split. Qed.

(** With two unknown names among three, the WARN is there. *)
Lemma forceActions_two_unknown_example :
  let c := Demo.after [registerActions (Fresh [Demo.action_a])] Demo.opened in
  logged_at WARN (trace (snd (forceActions "pick one" ["a"; "b"; "c"] None None None c)))
  = [unknown_in_force_message ["b"; "c"]].
Proof. reflexivity. Qed.

(** C9, at the failing input: [a] is registered, the socket is open, and
    [forceActions] is called with a query and the name [a] only.  The frame
    of the wrapper carries neither a priority nor an [ephemeral_context];
    the frame of the method it overrides carries [low] and [false]. *)
Theorem forceActions_defaults_lost :
  let c := Demo.after [registerActions (Fresh [Demo.action_a])] Demo.opened in
  trace (snd (forceActions "pick one" ["a"] None None None c))
  = trace c
    ++ [WsSend (mkOutgoingMessage "actions/force" "Guess the Number"
                  (Some (ForceActionsMessageData None "pick one" None None ["a"])))]
  /\ trace (snd (NeuroClient.forceActions "pick one" ["a"] None None None c))
     = trace c
       ++ [WsSend (mkOutgoingMessage "actions/force" "Guess the Number"
                     (Some (ForceActionsMessageData None "pick one" (Some false)
                              (Some LOW) ["a"])))]
  /\ priority_value LOW = "low".
Proof. repeat split. Qed.

(** The wrapper passes both arguments on as they are, on every call. *)
Lemma forceActions_passes_arguments (c : NeuroClientWrapper) (query : string)
    (actionNames : list string) (state : option string)
    (ephemeralContext : option bool) (priority : option ActionForcePriorityEnum) :
  ws c = Some OPEN ->
  last (trace (snd (forceActions query actionNames state ephemeralContext priority c)))
  = Some (WsSend (mkOutgoingMessage "actions/force" (game c)
                    (Some (ForceActionsMessageData state query ephemeralContext
                             priority actionNames)))).
Proof.
  intros Hopen. rewrite forceActions_open by assumption.
  cbn [snd trace]. rewrite app_assoc. apply last_snoc.
Qed.

(** The method of [NeuroClient] fills in both defaults, on every call. *)
Lemma NeuroClient_forceActions_defaults (c : NeuroClientWrapper) (query : string)
    (actionNames : list string) (state : option string) :
  ws c = Some OPEN ->
  NeuroClient.forceActions query actionNames state None None c =
    (Normal tt,
     emit (WsSend (mkOutgoingMessage "actions/force" (game c)
                     (Some (ForceActionsMessageData state query (Some false)
                              (Some LOW) actionNames)))) c).
Proof.
  intros Hopen. unfold NeuroClient.forceActions. cbn [default].
  unfold bind at 1, get at 1. now rewrite sendMessage_open.
Qed.

(** ** Action Dispatch Engine *)

Lemma emit_emit_all (e : Event) (events : list Event) (c : NeuroClientWrapper) :
  emit_all events (emit e c) = emit_all (e :: events) c.
Proof. unfold emit_all, emit. cbn. now rewrite <- app_assoc. Qed.

Lemma emit_all_nil (c : NeuroClientWrapper) : emit_all [] c = c.
Proof. destruct c. unfold emit_all. cbn. now rewrite app_nil_r. Qed.

Lemma sendActionResult_open (c : NeuroClientWrapper) (id : string) (success : bool)
    (message : string) :
  ws c = Some OPEN ->
  NeuroClient.sendActionResult id success (Some message) c =
    (Normal tt,
     emit_all ((if success then [] else [empty_messageText_warning])
               ++ [WsSend (result_frame (game c) id success message)]) c).
Proof.
  intros Hopen. destruct c as [w g u hs rs t]. simpl in Hopen. subst w.
  unfold NeuroClient.sendActionResult, NeuroClient.sendMessage, emit_all,
    result_frame, empty_messageText_warning.
  destruct success; run; rewrite <- ?app_assoc; reflexivity.
Qed.

Section Dispatch.

Context `{Externals}.

Lemma handleActionMessage_fuel_S (fuel : nat) (this : Receiver)
    (data : ActionMessageData) :
  handleActionMessage_fuel (S fuel) this data =
    match parse_actionParams data with
    | inl actionParams => dispatch_parsed (call_handler fuel) this data actionParams
    | inr error_message =>
        bind (on_this this "sendActionResult"
                (NeuroClient.sendActionResult (amd_id data) false
                   (Some (invalid_data_message error_message))))
             (fun _ => console ERROR
                         [("[NeuroClientWrapper] "
                           ++ invalid_data_message error_message)%string])
    end.
Proof. reflexivity. Qed.

(** The method run without its object throws at its first use of [this],
    before it does anything else. *)
Lemma handleActionMessage_detached (fuel : nat) (data : ActionMessageData)
    (c : NeuroClientWrapper) :
  handleActionMessage_fuel (S fuel) Undefined data c =
    (Throw (undefined_property
              (match parse_actionParams data with
               | inl _ => "registeredActions"
               | inr _ => "sendActionResult"
               end)), c).
Proof.
  rewrite handleActionMessage_fuel_S.
  destruct (parse_actionParams data); reflexivity.
Qed.

(** The loop over the handlers: handlers of the host are called in order
    up to the first detached method, whose call throws. *)
Lemma for_of_call_handler (fuel : nat) (handlers : list ActionHandler)
    (actionData : ActionData) (c : NeuroClientWrapper) :
  for_of handlers (fun handler => call_handler (S fuel) handler actionData) c =
    (if existsb is_detached handlers
     then Throw (undefined_property "registeredActions")
     else Normal tt,
     emit_all (map (fun h => Invoked h actionData) (called_handlers handlers)) c).
Proof.
  revert c. induction handlers as [|h rest IH]; intros c.
  - cbn. now rewrite emit_all_nil.
  - cbn [for_of existsb called_handlers map]. unfold bind at 1.
    unfold call_handler. unfold bind at 1. unfold modify at 1.
    destruct h as [|k]; cbn [is_detached orb].
    + rewrite handleActionMessage_detached. reflexivity.
    + unfold ret at 1. rewrite IH. now rewrite emit_emit_all.
Qed.

Lemma for_of_ext {A} (arr : list A) (f g : A -> M unit) (c : NeuroClientWrapper) :
  (forall x c', f x c' = g x c') -> for_of arr f c = for_of arr g c.
Proof.
  intros Hfg. revert c. induction arr as [|x rest IH]; intros c; [reflexivity|].
  cbn [for_of]. unfold bind. rewrite Hfg.
  destruct (g x c) as [[| |] c']; auto.
Qed.

Lemma call_handler_fuel (fuel : nat) (handler : ActionHandler)
    (actionData : ActionData) (c : NeuroClientWrapper) :
  call_handler (S fuel) handler actionData c = call_handler 1 handler actionData c.
Proof.
  unfold call_handler, bind, modify.
  destruct handler; [|reflexivity].
  now rewrite !handleActionMessage_detached.
Qed.

Lemma dispatch_parsed_ext (call call' : ActionHandler -> ActionData -> M unit)
    (this : Receiver) (data : ActionMessageData) (actionParams : JSON)
    (c : NeuroClientWrapper) :
  (forall h d c', call h d c' = call' h d c') ->
  dispatch_parsed call this data actionParams c
  = dispatch_parsed call' this data actionParams c.
Proof.
  intros Hcall. unfold dispatch_parsed, bind.
  destruct (on_this this "registeredActions" (get registeredActions) c)
    as [[registered| |] c1]; try reflexivity.
  destruct (List.find (name_is (amd_name data)) registered) as [action|];
    [|reflexivity].
  destruct (match act_schema action with
            | Some schema =>
                if negb (length (Object_keys schema) =? 0)%nat
                then Some (validate actionParams schema)
                else None
            | None => None
            end) as [[[|] errors]|]; try reflexivity;
    (destruct (on_this this "actionHandlers" (get actionHandlers) c1)
       as [[handlers| |] c2]; try reflexivity;
     destruct (0 <? length handlers)%nat; [|reflexivity];
     apply for_of_ext; intros; apply Hcall).
Qed.

(** Two levels of fuel are enough for every call: more fuel gives the same
    result. *)
Lemma handleActionMessage_fuel_enough (fuel : nat) (this : Receiver)
    (data : ActionMessageData) (c : NeuroClientWrapper) :
  handleActionMessage_fuel (S (S fuel)) this data c
  = handleActionMessage_fuel 2 this data c.
Proof.
  rewrite !handleActionMessage_fuel_S.
  destruct (parse_actionParams data); [|reflexivity].
  apply dispatch_parsed_ext. intros. apply call_handler_fuel.
Qed.


Lemma sendActionResult_normal (id : string) (success : bool)
    (messageText : option string) (c : NeuroClientWrapper) :
  fst (NeuroClient.sendActionResult id success messageText c) = Normal tt.
Proof.
  unfold NeuroClient.sendActionResult, NeuroClient.sendMessage.
  destruct c as [[[]|] g u hs rs t]; destruct success; reflexivity.
Qed.

(** Dispatch terminates: with the fuel it is given, [handleActionMessage]
    returns or throws. *)
Lemma handleActionMessage_terminates (data : ActionMessageData)
    (c : NeuroClientWrapper) :
  fst (handleActionMessage data c) <> OutOfFuel.
Proof.
  unfold handleActionMessage. rewrite handleActionMessage_fuel_S.
  destruct (parse_actionParams data) as [actionParams|error_message].
  - unfold dispatch_parsed, on_this. unfold bind at 1. unfold get at 1.
    destruct (List.find (name_is (amd_name data)) (registeredActions c))
      as [action|]; [|now rewrite sendActionResult_normal].
    destruct (match act_schema action with
              | Some schema =>
                  if negb (length (Object_keys schema) =? 0)%nat
                  then Some (validate actionParams schema)
                  else None
              | None => None
              end) as [[[|] errors]|];
      try (now rewrite sendActionResult_normal);
      (unfold bind at 1; unfold get at 1;
       destruct (0 <? length (actionHandlers c))%nat; [|discriminate];
       rewrite for_of_call_handler; cbn [fst];
       now destruct (existsb is_detached (actionHandlers c))).
  - unfold on_this, bind.
    pose proof (sendActionResult_normal (amd_id data) false
                  (Some (invalid_data_message error_message)) c) as Hnormal.
    destruct (NeuroClient.sendActionResult (amd_id data) false
                (Some (invalid_data_message error_message)) c) as [r c'].
    cbn [fst] in Hnormal. subst r. discriminate.
Qed.

(** What [handleActionMessage] does with a request that passes every
    check, on a client that has handlers: it calls the handlers in order
    up to the first detached method, and throws if there is one. *)
Lemma handleActionMessage_dispatches (c : NeuroClientWrapper)
    (data : ActionMessageData) (actionParams : JSON) (action : Action) :
  parse_actionParams data = inl actionParams ->
  List.find (name_is (amd_name data)) (registeredActions c) = Some action ->
  passes_validation action actionParams = true ->
  actionHandlers c <> [] ->
  handleActionMessage data c =
    (if existsb is_detached (actionHandlers c)
     then Throw (undefined_property "registeredActions")
     else Normal tt,
     emit_all
       (map (fun h => Invoked h (mkActionData (amd_id data) (amd_name data)
                                   actionParams))
          (called_handlers (actionHandlers c))) c).
Proof.
  intros Hparse Hfind Hvalid Hhandlers.
  unfold handleActionMessage. rewrite handleActionMessage_fuel_S, Hparse.
  unfold dispatch_parsed, on_this. unfold bind at 1. unfold get at 1.
  rewrite Hfind. unfold passes_validation in Hvalid.
  assert (Hloop :
    (let* handlers := get actionHandlers in
     if (0 <? length handlers)%nat
     then for_of handlers
            (fun handler =>
               call_handler 1 handler
                 (mkActionData (amd_id data) (amd_name data) actionParams))
     else loggingHandler
            "[NeuroClientWrapper] No action handlers registered." ERROR) c
    = (if existsb is_detached (actionHandlers c)
       then Throw (undefined_property "registeredActions")
       else Normal tt,
       emit_all
         (map (fun h => Invoked h (mkActionData (amd_id data) (amd_name data)
                                     actionParams))
            (called_handlers (actionHandlers c))) c)).
  { unfold bind at 1. unfold get at 1.
    destruct (actionHandlers c) as [|h hs] eqn:Hhs; [contradiction|].
    cbn [length Nat.ltb Nat.leb]. now rewrite for_of_call_handler. }
  destruct (act_schema action) as [schema|]; [|exact Hloop].
  destruct (negb (length (Object_keys schema) =? 0)%nat); [|exact Hloop].
  destruct (validate actionParams schema) as [[|] errors];
    [exact Hloop|discriminate].
Qed.

(** C6, as the code has it.  On an open socket, a request whose data is
    absent, empty or parses, and whose name has no entry in the registry,
    is answered by one [action/result] frame for its id, with success true
    and the message that the action is unknown; nothing else happens, and
    no handler is called. *)
Theorem unknown_action_answered (c : NeuroClientWrapper)
    (data : ActionMessageData) (actionParams : JSON) :
  ws c = Some OPEN ->
  parse_actionParams data = inl actionParams ->
  is_registered (registeredActions c) (amd_name data) = false ->
  handleActionMessage data c =
    (Normal tt,
     mkClient (ws c) (game c) (url c) (actionHandlers c) (registeredActions c)
       (trace c
        ++ [WsSend (result_frame (game c) (amd_id data) true
                      (unknown_action_message (amd_name data)))])).
Proof.
  intros Hopen Hparse Habsent.
  unfold handleActionMessage. rewrite handleActionMessage_fuel_S, Hparse.
  unfold dispatch_parsed, on_this. unfold bind at 1. unfold get at 1.
  unfold is_registered in Habsent.
  destruct (List.find (name_is (amd_name data)) (registeredActions c));
    [discriminate|].
  now rewrite sendActionResult_open.
Qed.

Lemma invoked_of_app (t t' : list Event) :
  invoked_of (t ++ t') = invoked_of t ++ invoked_of t'.
Proof. unfold invoked_of. now rewrite map_app, concat_app. Qed.

Lemma sendActionResult_events (id : string) (success : bool)
    (messageText : option string) (c : NeuroClientWrapper) :
  exists events,
    snd (NeuroClient.sendActionResult id success messageText c) = emit_all events c
    /\ invoked_of events = [].
Proof.
  unfold NeuroClient.sendActionResult, NeuroClient.sendMessage.
  destruct c as [[[]|] g u hs rs t]; destruct success; run;
    unfold emit_all; cbn [ws game url actionHandlers registeredActions trace];
    rewrite <- ?app_assoc; eexists; (split; [reflexivity|reflexivity]).
Qed.

(** Whatever [handleActionMessage] does once it has [actionParams], the
    handlers it calls get the id and the name of the request and those
    parameters, and nothing but the trace changes. *)
Lemma dispatch_parsed_invocations (c : NeuroClientWrapper)
    (data : ActionMessageData) (actionParams : JSON) :
  exists events,
    snd (dispatch_parsed (call_handler 1) This data actionParams c)
    = emit_all events c
    /\ Forall (fun call =>
                 snd call = mkActionData (amd_id data) (amd_name data) actionParams)
         (invoked_of events).
Proof.
  unfold dispatch_parsed, on_this. unfold bind at 1. unfold get at 1.
  assert (Hresult : forall success message,
    exists events,
      snd (NeuroClient.sendActionResult (amd_id data) success message c)
      = emit_all events c
      /\ Forall (fun call =>
                   snd call = mkActionData (amd_id data) (amd_name data) actionParams)
           (invoked_of events)).
  { intros success message.
    destruct (sendActionResult_events (amd_id data) success message c)
      as (events & Hrun & Hnone).
    exists events. split; [exact Hrun|]. rewrite Hnone. constructor. }
  assert (Hloop : exists events,
    snd ((let* handlers := get actionHandlers in
          if (0 <? length handlers)%nat
          then for_of handlers
                 (fun handler =>
                    call_handler 1 handler
                      (mkActionData (amd_id data) (amd_name data) actionParams))
          else loggingHandler
                 "[NeuroClientWrapper] No action handlers registered." ERROR) c)
    = emit_all events c
    /\ Forall (fun call =>
                 snd call = mkActionData (amd_id data) (amd_name data) actionParams)
         (invoked_of events)).
  { unfold bind at 1. unfold get at 1.
    destruct (0 <? length (actionHandlers c))%nat.
    - rewrite for_of_call_handler. eexists. split; [reflexivity|].
      induction (called_handlers (actionHandlers c)) as [|h hs IH];
        [constructor|].
      cbn [map]. change (invoked_of (?e :: ?t)) with (invoked_of [e] ++ invoked_of t).
      apply Forall_app. split; [|exact IH]. repeat constructor.
    - exists [Logged ERROR "[NeuroClientWrapper] No action handlers registered."].
      split; [reflexivity|constructor]. }
  destruct (List.find (name_is (amd_name data)) (registeredActions c)) as [action|];
    [|apply Hresult].
  destruct (match act_schema action with
            | Some schema =>
                if negb (length (Object_keys schema) =? 0)%nat
                then Some (validate actionParams schema)
                else None
            | None => None
            end) as [[[|] errors]|]; [exact Hloop|apply Hresult|exact Hloop].
Qed.


(** C7, as the code has it.  On an open socket, a request whose data is
    present, not empty and rejected by the parser is answered by one
    [action/result] frame for its id, with success false and a message
    that begins with [Invalid action data: ]; the registry and the
    handlers are as before and no handler is called.  A request whose data
    is absent or empty is carried on with the empty object as its
    parameters, which is what every handler called for it receives. *)
Theorem malformed_data_answered (c : NeuroClientWrapper)
    (data : ActionMessageData) (text parse_error : string) :
  ws c = Some OPEN ->
  amd_data data = Some text ->
  text <> ""%string ->
  JSON_parse text = inr parse_error ->
  handleActionMessage data c =
    (Normal tt,
     mkClient (ws c) (game c) (url c) (actionHandlers c) (registeredActions c)
       (trace c
        ++ [empty_messageText_warning;
            WsSend (result_frame (game c) (amd_id data) false
                      (invalid_data_message parse_error));
            Console ERROR
              [("[NeuroClientWrapper] " ++ invalid_data_message parse_error)%string]]))
  /\ startsWith (invalid_data_message parse_error) "Invalid action data: " = true
  /\ (forall request : ActionMessageData,
        amd_data request = None \/ amd_data request = Some ""%string ->
        parse_actionParams request = inl (JObj [])
        /\ handleActionMessage request c
           = dispatch_parsed (call_handler 1) This request (JObj []) c
        /\ exists events,
             snd (handleActionMessage request c) = emit_all events c
             /\ Forall (fun call =>
                          snd call
                          = mkActionData (amd_id request) (amd_name request)
                              (JObj []))
                  (invoked_of events)).
Proof.
  intros Hopen Hdata Hnonempty Hparse. split; [|split].
  - unfold handleActionMessage. rewrite handleActionMessage_fuel_S.
    unfold parse_actionParams. rewrite Hdata.
    destruct text as [|ch rest]; [contradiction|]. rewrite Hparse.
    unfold on_this, bind. rewrite sendActionResult_open by assumption.
    unfold console, modify, emit, emit_all. cbn. now rewrite <- app_assoc.
  - unfold invalid_data_message, startsWith. cbn.
    now destruct parse_error.
  - intros request Hfalsy.
    assert (Hempty : parse_actionParams request = inl (JObj []))
      by (unfold parse_actionParams; now destruct Hfalsy as [-> | ->]).
    assert (Hrun : handleActionMessage request c
                   = dispatch_parsed (call_handler 1) This request (JObj []) c)
      by (unfold handleActionMessage; now rewrite handleActionMessage_fuel_S, Hempty).
    split; [exact Hempty|]. split; [exact Hrun|].
    rewrite Hrun. apply dispatch_parsed_invocations.
Qed.

End Dispatch.

(** A request for the unregistered action [jump], without data. *)
Lemma unknown_action_answered_witness :
  let c := Demo.opened in
  let data := mkActionMessageData "7" "jump" None in
  frames_of (trace (snd (@handleActionMessage Demo.externals data c)))
  = frames_of (trace c)
    ++ [result_frame "Guess the Number" "7" true (unknown_action_message "jump")]
  /\ invoked_of (trace (snd (@handleActionMessage Demo.externals data c))) = [].
Proof.
  intros c data.
  rewrite (@unknown_action_answered Demo.externals c data (JObj [])
             eq_refl eq_refl eq_refl).
  split; reflexivity.
Defined.

(** C6, as the specification states it, fails: a request for the
    unregistered action [jump] whose data is the text of an open brace gets
    one result, with success false and the message of the parse error. *)
Lemma unknown_action_malformed_data_rejected :
  let c := Demo.opened in
  let data := mkActionMessageData "7" "jump" (Some "{") in
  is_registered (registeredActions c) "jump" = false
  /\ frames_of (trace (snd (@handleActionMessage Demo.externals data c)))
     = frames_of (trace c)
       ++ [result_frame "Guess the Number" "7" false
             "Invalid action data: Unexpected token"].
Proof. split; reflexivity. Qed.

(** A request whose data is the text of an open brace. *)
Lemma malformed_data_answered_witness :
  let c := Demo.opened in
  let data := mkActionMessageData "7" "jump" (Some "{") in
  frames_of (trace (snd (@handleActionMessage Demo.externals data c)))
  = frames_of (trace c)
    ++ [result_frame "Guess the Number" "7" false
          "Invalid action data: Unexpected token"]
  /\ registeredActions (snd (@handleActionMessage Demo.externals data c))
     = registeredActions c.
Proof.
  intros c data.
  assert (Hnonempty : "{"%string <> ""%string) by discriminate.
  destruct (@malformed_data_answered Demo.externals c data "{" "Unexpected token"
              eq_refl eq_refl Hnonempty eq_refl) as (Hrun & _ & _).
  rewrite Hrun. split; reflexivity.
Defined.

(** C7, as the specification states it, fails: the empty text is present
    and is not JSON, and a request that carries it is not rejected; here it
    is answered as a request for an unknown action, with success true. *)
Lemma empty_data_not_rejected :
  let c := Demo.opened in
  let data := mkActionMessageData "7" "jump" (Some ""%string) in
  @JSON_parse Demo.externals "" = inr "Unexpected end of JSON input"%string
  /\ frames_of (trace (snd (@handleActionMessage Demo.externals data c)))
     = frames_of (trace c)
       ++ [result_frame "Guess the Number" "7" true (unknown_action_message "jump")].
Proof. split; reflexivity. Qed.

(** With a handler of the host alone in [actionHandlers], a request without
    data reaches it with the empty object. *)
Lemma absent_data_empty_params_example :
  let c := set_actionHandlers [HostHandler 0]
             (Demo.after [registerActions (Fresh [Demo.action_a])] Demo.opened) in
  @handleActionMessage Demo.externals (mkActionMessageData "1" "a" None) c
  = (Normal tt, emit (Invoked (HostHandler 0) (mkActionData "1" "a" (JObj []))) c).
Proof. reflexivity. Qed.

(** What [handleActionMessage] does with a request that fails validation,
    on an open socket: one result with success false, whose message is
    [validation_message] of the name; no handler is called. *)
Lemma validation_failure_answered `{Externals} (c : NeuroClientWrapper)
    (data : ActionMessageData) (actionParams : JSON) (action : Action)
    (schema : JSONSchema7Object) (errors : list ValidationError) :
  ws c = Some OPEN ->
  parse_actionParams data = inl actionParams ->
  List.find (name_is (amd_name data)) (registeredActions c) = Some action ->
  act_schema action = Some schema ->
  Object_keys schema <> [] ->
  validate actionParams schema = mkValidatorResult false errors ->
  handleActionMessage data c =
    (Normal tt,
     emit_all
       [empty_messageText_warning;
        WsSend (result_frame (game c) (amd_id data) false
                  (validation_message (amd_name data)
                     (schemaFailures_of (messagesArray_of errors))))] c).
Proof.
  intros Hopen Hparse Hfind Hschema Hkeys Hinvalid.
  unfold handleActionMessage. rewrite handleActionMessage_fuel_S, Hparse.
  unfold dispatch_parsed, on_this. unfold bind at 1. unfold get at 1.
  rewrite Hfind, Hschema.
  destruct (Object_keys schema) as [|k ks]; [contradiction|].
  cbn [length Nat.eqb negb]. rewrite Hinvalid.
  now rewrite sendActionResult_open.
Qed.

(** The message of a failed validation is the same whatever the validator
    reported. *)
Lemma validation_message_constant (name failures failures' : string) :
  validation_message name failures = validation_message name failures'.
Proof. reflexivity. Qed.

(** C4, at the failing input: [guess_number] is registered with the schema
    of the example page, the socket is open, and a request arrives for it
    with the data of number 99.  The validator reports that the number must
    be at most 10.  One result is sent, with success false, and no handler
    is called; its message has the text [' + schemaFailures + '] where the
    list of errors was meant to be, and nothing of what the validator
    reported. *)
Theorem validation_failure_message_lacks_errors :
  let c := Demo.after [registerActions (Fresh [Demo.guess_number]);
                       NeuroClient.onAction (HostHandler 0)] Demo.opened in
  let data := mkActionMessageData "1" "guess_number" (Some Demo.data_number_99) in
  let r := @handleActionMessage Demo.externals data c in
  let reported :=
    schemaFailures_of
      (messagesArray_of
         (vr_errors (Demo.check (JObj [("number", JNum 99)])
                       (default [] (act_schema Demo.guess_number))))) in
  reported = "- number must be less than or equal to 10"%string
  /\ fst r = Normal tt
  /\ trace (snd r)
     = trace c
       ++ [empty_messageText_warning;
           WsSend (result_frame "Guess the Number" "1" false
                     (validation_message "guess_number" reported))]
  /\ includes (validation_message "guess_number" reported)
       "number must be less than or equal to 10" = false
  /\ includes (validation_message "guess_number" reported)
       "' + schemaFailures + '" = true.
Proof. repeat split. Qed.

(** The request of the example page with number 5 passes validation.  On
    the client as constructed the first handler called is the detached
    method, with the parsed parameters; with handlers of the host only, each
    is called once, in order. *)
Lemma valid_request_example :
  let c := Demo.after [registerActions (Fresh [Demo.guess_number]);
                       NeuroClient.onAction (HostHandler 0)] Demo.opened in
  let data := mkActionMessageData "1" "guess_number" (Some Demo.data_number_5) in
  let actionData := mkActionData "1" "guess_number" (JObj [("number", JNum 5)]) in
  @handleActionMessage Demo.externals data c
  = (Throw (undefined_property "registeredActions"),
     emit (Invoked Detached_handleActionMessage actionData) c)
  /\ @handleActionMessage Demo.externals data
       (set_actionHandlers [HostHandler 0; HostHandler 1] c)
     = (Normal tt,
        emit_all [Invoked (HostHandler 0) actionData;
                  Invoked (HostHandler 1) actionData]
          (set_actionHandlers [HostHandler 0; HostHandler 1] c)).
Proof. split; reflexivity. Qed.

(** The constructor puts the detached method first in [actionHandlers], and
    [onAction] adds behind it. *)
Lemma constructor_handlers `{Externals} (u g : string) :
  actionHandlers (constructor u g) = [Detached_handleActionMessage].
Proof. reflexivity. Qed.

Lemma onAction_appends (handler : ActionHandler) (c : NeuroClientWrapper) :
  NeuroClient.onAction handler c
  = (Normal tt, set_actionHandlers (actionHandlers c ++ [handler]) c).
Proof. reflexivity. Qed.

(** On a client whose first handler is the detached method, a request that
    passes every check ends in a TypeError at the first call of the loop,
    which is a call of the method itself; no other handler is called. *)
Lemma handleActionMessage_reenters `{Externals} (c : NeuroClientWrapper)
    (data : ActionMessageData) (actionParams : JSON) (action : Action)
    (others : list ActionHandler) :
  parse_actionParams data = inl actionParams ->
  List.find (name_is (amd_name data)) (registeredActions c) = Some action ->
  passes_validation action actionParams = true ->
  actionHandlers c = Detached_handleActionMessage :: others ->
  handleActionMessage data c =
    (Throw (undefined_property "registeredActions"),
     emit (Invoked Detached_handleActionMessage
             (mkActionData (amd_id data) (amd_name data) actionParams)) c).
Proof.
  intros Hparse Hfind Hvalid Hhandlers.
  rewrite (handleActionMessage_dispatches c data actionParams action)
    by (try assumption; now rewrite Hhandlers).
  rewrite Hhandlers. reflexivity.
Qed.

(** C10, at the failing input: a wrapper is constructed and opened, the
    action [a] (no schema) is registered, a handler of the host is added
    with [onAction], and the frame of a request for [a] arrives.  The loop
    calls the method itself first, detached from the client; that call
    throws a TypeError, which ends the dispatch, and the handler of the host
    is never called. *)
Theorem dispatch_reenters_and_throws :
  let c := Demo.after [registerActions (Fresh [Demo.action_a]);
                       NeuroClient.onAction (HostHandler 0)] Demo.opened in
  let r := @handleMessage Demo.externals Demo.frame_action_a c in
  actionHandlers c = [Detached_handleActionMessage; HostHandler 0]
  /\ fst r = Throw (TypeError
                     "Cannot read properties of undefined (reading 'registeredActions')")
  /\ invoked_of (trace (snd r))
     = [(Detached_handleActionMessage, mkActionData "1" "a" (JObj []))]
  /\ trace (snd r)
     = trace c
       ++ [Invoked Detached_handleActionMessage (mkActionData "1" "a" (JObj []))].
Proof. repeat split. Qed.

(** ** What no operation does: a frame rule *)

Lemma event_ok_same (c c' : NeuroClientWrapper) (e : Event) :
  ws c' = ws c -> game c' = game c -> event_ok c' e -> event_ok c e.
Proof. intros Hws Hgame. destruct e; cbn; rewrite ?Hws, ?Hgame; auto. Qed.

Lemma steady_ret {A} (a : A) : steady (ret a).
Proof.
  intros c. repeat split. exists []. split; [now rewrite app_nil_r|constructor].
Qed.

Lemma steady_throw {A} (e : JsError) : steady (@throw A e).
Proof.
  intros c. repeat split. exists []. split; [now rewrite app_nil_r|constructor].
Qed.

Lemma steady_get {A} (f : NeuroClientWrapper -> A) : steady (get f).
Proof.
  intros c. repeat split. exists []. split; [now rewrite app_nil_r|constructor].
Qed.

Lemma steady_bind {A B} (m : M A) (k : A -> M B) :
  steady m -> (forall a, steady (k a)) -> steady (bind m k).
Proof.
  intros Hm Hk c. unfold bind. specialize (Hm c).
  destruct (m c) as [[a|e|] c1]; cbn [snd] in *; try exact Hm.
  destruct Hm as (Hws & Hgame & Hurl & Hhs & events & Htrace & Hok).
  destruct (Hk a c1) as (Hws' & Hgame' & Hurl' & Hhs' & events' & Htrace' & Hok').
  repeat split; try congruence.
  exists (events ++ events'). split.
  - now rewrite Htrace', Htrace, app_assoc.
  - apply Forall_app. split; [exact Hok|].
    eapply Forall_impl; [exact Hok'|]. intros e. now apply event_ok_same.
Qed.

(** The same with the state at hand, for a continuation that reads it. *)
Lemma steady_get_bind {A B} (f : NeuroClientWrapper -> A) (k : A -> M B) :
  (forall c, let r := k (f c) c in
             ws (snd r) = ws c /\ game (snd r) = game c /\ url (snd r) = url c
             /\ actionHandlers (snd r) = actionHandlers c
             /\ exists events,
                  trace (snd r) = trace c ++ events /\ Forall (event_ok c) events) ->
  steady (bind (get f) k).
Proof. intros Hk c. exact (Hk c). Qed.

Lemma steady_emit (e : Event) :
  (forall c, event_ok c e) -> steady (modify (emit e)).
Proof.
  intros He c. repeat split. exists [e]. split; [reflexivity|].
  constructor; [apply He|constructor].
Qed.

Lemma steady_loggingHandler (message : string) (level : LogLevel) :
  steady (loggingHandler message level).
Proof. apply steady_emit. intros c. exact I. Qed.

Lemma steady_console (level : LogLevel) (args : list string) :
  steady (console level args).
Proof. apply steady_emit. intros c. exact I. Qed.

Lemma steady_set_registeredActions (f : NeuroClientWrapper -> list Action) :
  steady (modify (fun c => set_registeredActions (f c) c)).
Proof.
  intros c. repeat split. exists []. split; [cbn; now rewrite app_nil_r|constructor].
Qed.

(** A send under the game of the client. *)
Lemma steady_send (command : string) (data : option (MessageData ActionsRef)) :
  steady (let* g := get game in
          NeuroClient.sendMessage (mkOutgoingMessage command g data)).
Proof.
  intros c. unfold NeuroClient.sendMessage, bind, get, console, modify.
  destruct c as [[[]|] g u hs rs t];
    cbn [snd emit ws game url actionHandlers trace];
    repeat split;
    eexists; (split; [reflexivity|]);
    (constructor; [|constructor]); cbn; auto.
Qed.

Lemma steady_if {A} (b : bool) (m m' : M A) :
  steady m -> steady m' -> steady (if b then m else m').
Proof. now destruct b. Qed.

Lemma steady_for_of {A} (arr : list A) (body : A -> M unit) :
  (forall x, steady (body x)) -> steady (for_of arr body).
Proof.
  intros Hbody. induction arr as [|x rest IH]; cbn [for_of].
  - apply steady_ret.
  - apply steady_bind; [apply Hbody|intros _; exact IH].
Qed.

Lemma steady_sendActionResult (id : string) (success : bool)
    (messageText : option string) :
  steady (NeuroClient.sendActionResult id success messageText).
Proof.
  unfold NeuroClient.sendActionResult.
  apply steady_bind; [|intros _; apply steady_send].
  apply steady_if; [apply steady_console|apply steady_ret].
Qed.

Lemma steady_registerActions (actions : list Action) :
  steady (registerActions (Fresh actions)).
Proof.
  unfold registerActions.
  apply steady_bind; [apply steady_get|intros arr].
  apply steady_bind; [apply steady_get|intros registered].
  apply steady_bind;
    [apply steady_if; [apply steady_loggingHandler|apply steady_ret]|intros _].
  apply steady_bind; [|intros _; apply steady_send].
  apply (steady_set_registeredActions
           (fun c => registeredActions c ++ deref (Fresh actions) c)).
Qed.

Lemma steady_unregister_loop (actionNames unknownNames : list string) :
  steady (unregister_loop actionNames unknownNames).
Proof.
  revert unknownNames.
  induction actionNames as [|n rest IH]; intros unknownNames; cbn [unregister_loop].
  - apply steady_ret.
  - apply steady_bind; [apply steady_get|intros registered].
    destruct (findIndex (name_is n) registered =? -1).
    + destruct (array_get registered (findIndex (name_is n) registered));
        [apply IH|apply steady_throw].
    + apply steady_bind; [|intros _; apply IH].
      apply (steady_set_registeredActions
               (fun _ => splice1 registered (findIndex (name_is n) registered))).
Qed.

Lemma steady_unregisterActions (actionNames : list string) :
  steady (unregisterActions actionNames).
Proof.
  unfold unregisterActions.
  apply steady_bind; [apply steady_unregister_loop|intros unknownNames].
  apply steady_bind; [|intros _; apply steady_send].
  apply steady_if; [apply steady_loggingHandler|apply steady_ret].
Qed.

Lemma steady_forceActions (query : string) (actionNames : list string)
    (state : option string) (ephemeralContext : option bool)
    (priority : option ActionForcePriorityEnum) :
  steady (forceActions query actionNames state ephemeralContext priority).
Proof.
  unfold forceActions.
  apply steady_bind; [apply steady_get|intros registered].
  apply steady_bind; [|intros _; apply steady_send].
  apply steady_if; [apply steady_loggingHandler|].
  apply steady_if; [apply steady_loggingHandler|apply steady_ret].
Qed.

Lemma steady_sendContext (messageText : string) (silent : option bool) :
  steady (sendContext messageText silent).
Proof.
  unfold sendContext.
  apply steady_bind; [apply steady_loggingHandler|intros _; apply steady_send].
Qed.

Section SteadyDispatch.

Context `{Externals}.

Lemma steady_on_this {A} (this : Receiver) (prop : string) (m : M A) :
  steady m -> steady (on_this this prop m).
Proof. destruct this; [auto|intros _; apply steady_throw]. Qed.

Lemma steady_dispatch_parsed (call : ActionHandler -> ActionData -> M unit)
    (this : Receiver) (data : ActionMessageData) (actionParams : JSON) :
  (forall h d, steady (call h d)) ->
  steady (dispatch_parsed call this data actionParams).
Proof.
  intros Hcall. unfold dispatch_parsed.
  apply steady_bind; [apply steady_on_this, steady_get|intros registered].
  destruct (List.find (name_is (amd_name data)) registered) as [action|];
    [|apply steady_on_this, steady_sendActionResult].
  assert (Hloop : steady
    (let* handlers := on_this this "actionHandlers" (get actionHandlers) in
     if (0 <? length handlers)%nat
     then for_of handlers
            (fun handler =>
               call handler (mkActionData (amd_id data) (amd_name data) actionParams))
     else on_this this "loggingHandler"
            (loggingHandler
               "[NeuroClientWrapper] No action handlers registered." ERROR))).
  { apply steady_bind; [apply steady_on_this, steady_get|intros handlers].
    apply steady_if; [apply steady_for_of; intros h; apply Hcall|].
    apply steady_on_this, steady_loggingHandler. }
  destruct (match act_schema action with
            | Some schema =>
                if negb (length (Object_keys schema) =? 0)%nat
                then Some (validate actionParams schema)
                else None
            | None => None
            end) as [[[|] errors]|]; try exact Hloop.
  apply steady_on_this, steady_sendActionResult.
Qed.

Lemma steady_handleActionMessage_fuel (fuel : nat) (this : Receiver)
    (data : ActionMessageData) :
  steady (handleActionMessage_fuel fuel this data).
Proof.
  revert this data. induction fuel as [|fuel IH]; intros this data.
  - intros c. repeat split. exists []. split; [now rewrite app_nil_r|constructor].
  - rewrite handleActionMessage_fuel_S.
    destruct (parse_actionParams data) as [actionParams|error_message].
    + apply steady_dispatch_parsed. intros h d. unfold call_handler.
      apply steady_bind; [apply steady_emit; intros c; exact I|intros _].
      destruct h; [apply IH|apply steady_ret].
    + apply steady_bind; [|intros _; apply steady_console].
      apply steady_on_this, steady_sendActionResult.
Qed.

Lemma steady_handleMessage (data : string) : steady (handleMessage data).
Proof.
  unfold handleMessage.
  destruct (JSON_parse_message data) as [message|];
    [|apply steady_loggingHandler].
  destruct (String.eqb (in_command message) "action").
  - destruct (in_data message);
      [apply steady_handleActionMessage_fuel|apply steady_throw].
  - apply steady_if; [|apply steady_loggingHandler].
    (* the registry array itself *)
    unfold registerActions.
    apply steady_bind; [apply steady_get|intros arr].
    apply steady_bind; [apply steady_get|intros registered].
    apply steady_bind;
      [apply steady_if; [apply steady_loggingHandler|apply steady_ret]|intros _].
    apply steady_bind; [|intros _; apply steady_send].
    apply (steady_set_registeredActions
             (fun c => registeredActions c ++ deref TheRegisteredActions c)).
Qed.

End SteadyDispatch.

(** ** Sequences of calls *)

Lemma frames_of_app (t t' : list Event) :
  frames_of (t ++ t') = frames_of t ++ frames_of t'.
Proof. unfold frames_of. now rewrite map_app, concat_app. Qed.

Lemma logged_at_app (level : LogLevel) (t t' : list Event) :
  logged_at level (t ++ t') = logged_at level t ++ logged_at level t'.
Proof. unfold logged_at. now rewrite map_app, concat_app. Qed.

Lemma event_ok_frames_tagged (c : NeuroClientWrapper) (events : list Event) :
  Forall (event_ok c) events ->
  Forall (fun f => out_game f = game c) (frames_of events).
Proof.
  induction 1 as [|e events He _ IH]; [constructor|].
  change (e :: events) with ([e] ++ events). rewrite frames_of_app.
  apply Forall_app. split; [|exact IH].
  destruct e; cbn in *; try constructor; [tauto|constructor].
Qed.

Lemma event_ok_not_open (c : NeuroClientWrapper) (events : list Event) :
  is_open (ws c) = false -> Forall (event_ok c) events -> frames_of events = [].
Proof.
  intros Hclosed. induction 1 as [|e events He _ IH]; [reflexivity|].
  change (e :: events) with ([e] ++ events). rewrite frames_of_app.
  rewrite IH, app_nil_r.
  destruct e; cbn in *; try reflexivity. destruct He. congruence.
Qed.

Section Sequences.

Context `{Externals}.

(** The calls that neither touch the socket nor the handlers. *)
Lemma perform_steady (call : Call) :
  match call with
  | Call_onAction _ | Call_disconnect | Call_reconnect _ | Socket_open => True
  | _ => steady (perform call)
  end.
Proof.
  destruct call; cbn [perform]; try exact I.
  - apply steady_registerActions.
  - apply steady_unregisterActions.
  - apply steady_forceActions.
  - apply steady_sendContext.
  - apply steady_sendActionResult.
  - unfold ws_onmessage. apply steady_handleMessage.
Qed.

(** What one call adds to the trace: frames under the game of the client
    only; on a socket that is not open no frame at all and no open socket
    afterwards, unless the call is the opening of the socket, which sends
    the startup frame and nothing else. *)
Lemma perform_summary (call : Call) (c : NeuroClientWrapper) :
  game (snd (perform call c)) = game c
  /\ exists events,
       trace (snd (perform call c)) = trace c ++ events
       /\ Forall (fun f => out_game f = game c) (frames_of events)
       /\ (is_open (ws c) = false ->
           (frames_of events = [] /\ is_open (ws (snd (perform call c))) = false)
           \/ (call = Socket_open /\ frames_of events = [startup_frame (game c)])).
Proof.
  pose proof (perform_steady call) as Hsteady.
  destruct call;
    try (destruct (Hsteady c) as (Hws & Hgame & _ & _ & events & Htrace & Hok);
         split; [exact Hgame|];
         exists events; split; [exact Htrace|];
         split; [now apply event_ok_frames_tagged|];
         intros Hclosed; left; rewrite Hws; split;
         [now apply (event_ok_not_open c)|exact Hclosed]).
  - (* onAction *)
    split; [reflexivity|]. exists []. cbn.
    split; [now rewrite app_nil_r|]. split; [constructor|]. intros Hc. now left.
  - (* disconnect *)
    destruct c as [[[]|] g u hs rs t]; cbn; (split; [reflexivity|]);
      try (exists []; split; [now rewrite app_nil_r|];
           split; [constructor|]; intros Hc; now left).
    exists [WsClose]. split; [reflexivity|]. split; [constructor|].
    intros Hc. discriminate.
  - (* reconnect *)
    destruct c as [[[]|] g u hs rs t]; destruct url0 as [[|ch rest]|];
      cbn; (split; [reflexivity|]);
      try (eexists [WsNew _]; split; [reflexivity|];
           split; [constructor|]; intros Hc; now left).
    all: eexists [WsClose; WsNew _]; (split; [now rewrite <- app_assoc|]);
      (split; [constructor|]); intros Hc; discriminate.
  - (* the socket opens *)
    destruct c as [[[]|] g u hs rs t]; cbn; (split; [reflexivity|]);
      try (exists []; split; [now rewrite app_nil_r|];
           split; [constructor|]; intros Hc; (now left) || discriminate).
    eexists [Console LOG _; WsSend (startup_frame g); OnConnected].
    split; [now rewrite <- !app_assoc|].
    split; [repeat constructor|]. intros _. right. split; reflexivity.
Qed.

(** The handlers after one call: only [onAction] changes them, and it adds
    at the end. *)
Lemma perform_handlers (call : Call) (c : NeuroClientWrapper) :
  actionHandlers (snd (perform call c))
  = actionHandlers c ++ map HostHandler (onAction_keys [call]).
Proof.
  pose proof (perform_steady call) as Hsteady.
  destruct call;
    try (destruct (Hsteady c) as (_ & _ & _ & Hhs & _);
         rewrite Hhs; cbn; now rewrite app_nil_r).
  - reflexivity.
  - destruct c as [[[]|] g u hs rs t]; cbn; now rewrite app_nil_r.
  - destruct c as [[[]|] g u hs rs t]; destruct url0 as [[|ch rest]|];
      cbn; now rewrite app_nil_r.
  - destruct c as [[[]|] g u hs rs t]; cbn; now rewrite app_nil_r.
Qed.

Lemma onAction_keys_cons (call : Call) (calls : list Call) :
  onAction_keys (call :: calls) = onAction_keys [call] ++ onAction_keys calls.
Proof.
  unfold onAction_keys. change (call :: calls) with ([call] ++ calls).
  now rewrite map_app, concat_app.
Qed.

(** The first handler stays the first, whatever is called. *)
Lemma run_calls_first_handler (calls : list Call) (c : NeuroClientWrapper)
    (first : ActionHandler) (others : list ActionHandler) :
  actionHandlers c = first :: others ->
  exists others', actionHandlers (run_calls calls c) = first :: others'.
Proof.
  revert c others. induction calls as [|call calls IH]; intros c others Hc;
    [now exists others|].
  apply (IH (snd (perform call c))
            (others ++ map HostHandler (onAction_keys [call]))).
  now rewrite perform_handlers, Hc.
Qed.

End Sequences.

Section Reachable.

Context `{Externals}.

Lemma announced_constructor (url g : string) : announced g (constructor url g).
Proof. repeat split; cbn; auto. Qed.

Lemma announced_perform (g : string) (call : Call) (c : NeuroClientWrapper) :
  announced g c -> announced g (snd (perform call c)).
Proof.
  intros (Hgame & Htagged & Hfirst & Hopen).
  destruct (perform_summary call c)
    as (Hgame' & events & Htrace & Htagged' & Hclosed).
  unfold announced. rewrite Htrace, frames_of_app, Hgame', Hgame.
  rewrite Hgame in Htagged', Hclosed.
  split; [reflexivity|]. split; [apply Forall_app; now split|].
  destruct Hfirst as [Hnone|(rest & Hsome)].
  - rewrite Hnone. cbn [app].
    destruct (Hclosed (Hopen Hnone)) as [(Hno & Hstill)|(_ & Hstartup)].
    + rewrite Hno. split; [now left|]. intros _. exact Hstill.
    + rewrite Hstartup. split; [right; now exists []|]. discriminate.
  - rewrite Hsome. split; [right; now exists (rest ++ frames_of events)|].
    discriminate.
Qed.

Lemma announced_run_calls (g : string) (calls : list Call) (c : NeuroClientWrapper) :
  announced g c -> announced g (run_calls calls c).
Proof.
  revert c. induction calls as [|call calls IH]; intros c Hc; [exact Hc|].
  apply (IH (snd (perform call c))). now apply announced_perform.
Qed.

(** X1. While the socket of a client is not open, no call of the host and
    no incoming frame makes it send anything, and none opens the socket:
    what was to be sent is dropped. *)
Theorem no_frame_unless_open (call : Call) (c : NeuroClientWrapper) :
  is_open (ws c) = false ->
  call <> Socket_open ->
  frames_of (trace (snd (perform call c))) = frames_of (trace c)
  /\ is_open (ws (snd (perform call c))) = false.
Proof.
  intros Hclosed Hcall.
  destruct (perform_summary call c) as (_ & events & Htrace & _ & Hcases).
  destruct (Hcases Hclosed) as [(Hno & Hstill)|(Hopen & _)]; [|contradiction].
  rewrite Htrace, frames_of_app, Hno, app_nil_r. now split.
Qed.

(** X2. Every frame a wrapper ever sends carries the game it was
    constructed with, whatever the host calls and whatever arrives. *)
Theorem frames_carry_game (url g : string) (calls : list Call) :
  game (run_calls calls (constructor url g)) = g
  /\ Forall (fun f => out_game f = g)
       (frames_of (trace (run_calls calls (constructor url g)))).
Proof.
  destruct (announced_run_calls g calls (constructor url g)
              (announced_constructor url g)) as (Hgame & Htagged & _).
  now split.
Qed.

(** X3. The first frame a wrapper sends is the startup frame of its game,
    and whenever its socket is open it has sent that frame. *)
Theorem startup_comes_first (url g : string) (calls : list Call) :
  (frames_of (trace (run_calls calls (constructor url g))) = []
   \/ exists rest,
        frames_of (trace (run_calls calls (constructor url g)))
        = startup_frame g :: rest)
  /\ (is_open (ws (run_calls calls (constructor url g))) = true ->
      exists rest,
        frames_of (trace (run_calls calls (constructor url g)))
        = startup_frame g :: rest).
Proof.
  destruct (announced_run_calls g calls (constructor url g)
              (announced_constructor url g)) as (_ & _ & Hfirst & Hopen).
  split; [exact Hfirst|].
  intros Hws. destruct Hfirst as [Hnone|Hsome]; [|exact Hsome].
  rewrite (Hopen Hnone) in Hws. discriminate.
Qed.

(** X4. The handlers of a wrapper are the method the constructor pushed,
    followed by the callbacks given to [onAction], in the order of the
    calls: no other call adds, removes or reorders a handler. *)
Theorem handlers_are_those_registered (url g : string) (calls : list Call) :
  actionHandlers (run_calls calls (constructor url g))
  = Detached_handleActionMessage :: map HostHandler (onAction_keys calls).
Proof.
  change (Detached_handleActionMessage :: map HostHandler (onAction_keys calls))
    with (actionHandlers (constructor url g) ++ map HostHandler (onAction_keys calls)).
  generalize (constructor url g). induction calls as [|call calls IH]; intros c.
  - cbn. now rewrite app_nil_r.
  - change (run_calls (call :: calls) c)
      with (run_calls calls (snd (perform call c))).
    rewrite IH, perform_handlers, (onAction_keys_cons call calls), map_app.
    now rewrite <- app_assoc.
Qed.

(** X5. On a wrapper as the constructor makes it, after any calls: a
    request that parses, names a registered action and passes its schema
    ends in a TypeError at the first call of the loop, and no callback of
    the host is called. *)
Theorem reachable_dispatch_throws (url g : string) (calls : list Call)
    (data : ActionMessageData) (actionParams : JSON) (action : Action) :
  parse_actionParams data = inl actionParams ->
  List.find (name_is (amd_name data))
    (registeredActions (run_calls calls (constructor url g))) = Some action ->
  passes_validation action actionParams = true ->
  handleActionMessage data (run_calls calls (constructor url g)) =
    (Throw (undefined_property "registeredActions"),
     emit (Invoked Detached_handleActionMessage
             (mkActionData (amd_id data) (amd_name data) actionParams))
       (run_calls calls (constructor url g))).
Proof.
  intros Hparse Hfind Hvalid.
  destruct (run_calls_first_handler calls (constructor url g)
              Detached_handleActionMessage [] eq_refl) as (others & Hhandlers).
  now apply (handleActionMessage_reenters _ data actionParams action others).
Qed.

End Reachable.

(** A closing socket; the wrapper records the action and sends nothing. *)
Lemma no_frame_unless_open_witness :
  let c := Demo.after [NeuroClient.disconnect] Demo.opened in
  frames_of (trace (snd (@perform Demo.externals
                           (Call_registerActions [Demo.action_a]) c)))
  = frames_of (trace c)
  /\ registeredActions (snd (@perform Demo.externals
                               (Call_registerActions [Demo.action_a]) c))
     = [Demo.action_a].
Proof.
  intros c.
  assert (Hcall : Call_registerActions [Demo.action_a] <> Socket_open)
    by discriminate.
  destruct (@no_frame_unless_open Demo.externals
              (Call_registerActions [Demo.action_a]) c eq_refl Hcall) as [Hframes _].
  split; [exact Hframes|reflexivity].
Defined.

(** The socket opens, [a] is registered, a callback is added, and a request
    for [a] arrives. *)
Lemma reachable_dispatch_throws_witness :
  let calls := [Socket_open; Call_registerActions [Demo.action_a]; Call_onAction 0] in
  let c := @run_calls Demo.externals calls
             (constructor "ws://localhost:8000" "Guess the Number") in
  fst (@handleActionMessage Demo.externals (mkActionMessageData "1" "a" None) c)
  = Throw (undefined_property "registeredActions")
  /\ actionHandlers c = [Detached_handleActionMessage; HostHandler 0].
Proof.
  intros calls c. subst c.
  rewrite (@reachable_dispatch_throws Demo.externals "ws://localhost:8000"
             "Guess the Number" calls (mkActionMessageData "1" "a" None)
             (JObj []) Demo.action_a eq_refl eq_refl eq_refl).
  split; reflexivity.
Defined.

(** ** Action Registry: lookups, removals, round trips *)

Lemma find_app_either {A} (p : A -> bool) (l l' : list A) :
  List.find p (l ++ l')
  = match List.find p l with
    | Some a => Some a
    | None => List.find p l'
    end.
Proof.
  induction l as [|x l IH]; [reflexivity|].
  cbn [app List.find]. now destruct (p x).
Qed.

(** The registry after [registerActions], on any socket. *)
Lemma registerActions_registry (actions : list Action) (c : NeuroClientWrapper) :
  registeredActions (snd (registerActions (Fresh actions) c))
  = registeredActions c ++ actions.
Proof.
  unfold registerActions, bind, get, modify, loggingHandler, ret,
    NeuroClient.sendMessage, console.
  cbn [deref].
  destruct (negb _); destruct c as [[[]|] g u hs rs t]; reflexivity.
Qed.

(** X6. After [registerActions], whether or not anything could be sent, a
    lookup by name finds what it found before, and for a name that had no
    entry the first action of the batch with that name. *)
Theorem registerActions_then_lookup (actions : list Action) (name : string)
    (c : NeuroClientWrapper) :
  List.find (name_is name)
    (registeredActions (snd (registerActions (Fresh actions) c)))
  = match List.find (name_is name) (registeredActions c) with
    | Some a => Some a
    | None => List.find (name_is name) actions
    end.
Proof. rewrite registerActions_registry. apply find_app_either. Qed.

(** X7. When no action of the batch has a name that is registered, no WARN
    is logged, also when the batch itself has one name twice: the registry
    then holds both entries, unreported. *)
Theorem registerActions_fresh_names_silent (c : NeuroClientWrapper)
    (actions : list Action) :
  ws c = Some OPEN ->
  (forall a, In a actions -> is_registered (registeredActions c) (act_name a) = false) ->
  registerActions (Fresh actions) c =
    (Normal tt,
     mkClient (ws c) (game c) (url c) (actionHandlers c)
       (registeredActions c ++ actions)
       (trace c
        ++ [WsSend (mkOutgoingMessage "actions/register" (game c)
                      (Some (RegisterActionsMessageData actions)))])).
Proof.
  intros Hopen Hfresh. rewrite registerActions_fresh by assumption.
  assert (Hnone : knownActions_of (registeredActions c) actions = []).
  { unfold knownActions_of.
    destruct (List.filter
                (fun a => is_registered (registeredActions c) (act_name a)) actions)
      as [|a rest] eqn:Hfilter; [reflexivity|].
    assert (Hin : In a (a :: rest)) by now left.
    rewrite <- Hfilter in Hin. apply List.filter_In in Hin.
    destruct Hin as [Hin Hreg]. rewrite (Hfresh a Hin) in Hreg. discriminate. }
  now rewrite Hnone.
Qed.

(** The action [a] twice in one batch, on an empty registry. *)
Lemma registerActions_fresh_names_silent_witness :
  registeredActions
    (snd (registerActions (Fresh [Demo.action_a; Demo.action_a]) Demo.opened))
  = [Demo.action_a; Demo.action_a]
  /\ logged_at WARN
       (trace (snd (registerActions (Fresh [Demo.action_a; Demo.action_a])
                      Demo.opened))) = [].
Proof.
  assert (Hfresh : forall a, In a [Demo.action_a; Demo.action_a] ->
                   is_registered (registeredActions Demo.opened) (act_name a) = false)
    by (intros a _; reflexivity).
  rewrite (registerActions_fresh_names_silent Demo.opened
             [Demo.action_a; Demo.action_a] eq_refl Hfresh).
  split; reflexivity.
Defined.

(** The loop never adds to [unknownNames]: it returns the list it got. *)
Lemma unregister_loop_returns (actionNames unknownNames : list string)
    (c : NeuroClientWrapper) :
  fst (unregister_loop actionNames unknownNames c) = Normal unknownNames
  \/ fst (unregister_loop actionNames unknownNames c)
     = Throw (undefined_property "name").
Proof.
  revert unknownNames c.
  induction actionNames as [|n rest IH]; intros unknownNames c; [now left|].
  rewrite unregister_loop_cons.
  destruct (findIndex (name_is n) (registeredActions c) =? -1);
    [now right|apply IH].
Qed.

(** X8. [unregisterActions] never calls the logging handler, at any level:
    the report of names that are not registered cannot be reached. *)
Theorem unregisterActions_never_logs (actionNames : list string)
    (level : LogLevel) (c : NeuroClientWrapper) :
  logged_at level (trace (snd (unregisterActions actionNames c)))
  = logged_at level (trace c).
Proof.
  unfold unregisterActions, bind.
  pose proof (unregister_loop_returns actionNames [] c) as Hreturns.
  pose proof (unregister_loop_silent actionNames [] c) as [Hws Htrace].
  destruct (unregister_loop actionNames [] c) as [r c1]. cbn [fst snd] in *.
  destruct Hreturns as [-> | ->]; [|cbn [snd]; now rewrite Htrace].
  cbn [length Nat.eqb negb].
  unfold ret, NeuroClient.sendMessage, bind, get, console, modify.
  destruct c1 as [[[]|] g u hs rs t]; cbn [snd emit trace ws game] in *;
    rewrite logged_at_app, Htrace; cbn; now rewrite app_nil_r.
Qed.

Lemma findIndex_head {A} (p : A -> bool) (x : A) (l : list A) :
  p x = true -> findIndex p (x :: l) = 0.
Proof. intros Hp. cbn [findIndex]. now rewrite Hp. Qed.

Lemma findIndex_tail {A} (p : A -> bool) (x : A) (l : list A) :
  p x = false -> findIndex p l <> -1 ->
  findIndex p (x :: l) = findIndex p l + 1.
Proof.
  intros Hp Hfound. cbn [findIndex]. rewrite Hp.
  now destruct (Z.eqb_spec (findIndex p l) (-1)).
Qed.

Lemma is_registered_cons (x : Action) (rest : list Action) (name : string) :
  is_registered (x :: rest) name = name_is name x || is_registered rest name.
Proof. unfold is_registered. cbn [List.find]. now destruct (name_is name x). Qed.

Lemma is_registered_findIndex (registered : list Action) (name : string) :
  is_registered registered name = true <-> findIndex (name_is name) registered <> -1.
Proof.
  unfold is_registered. rewrite findIndex_absent.
  destruct (List.find (name_is name) registered); split; congruence.
Qed.


(** The last step of the registry operations: the send. *)
Lemma send_keeps_registry (command : string)
    (data : option (MessageData ActionsRef)) (c : NeuroClientWrapper) :
  fst ((let* g := get game in
        NeuroClient.sendMessage (mkOutgoingMessage command g data)) c) = Normal tt
  /\ registeredActions
       (snd ((let* g := get game in
              NeuroClient.sendMessage (mkOutgoingMessage command g data)) c))
     = registeredActions c.
Proof.
  unfold NeuroClient.sendMessage, bind, get, console, modify.
  destruct c as [[[]|] g u hs rs t]; split; reflexivity.
Qed.




Lemma is_registered_In (registered : list Action) (name : string) :
  is_registered registered name = true <-> In name (map act_name registered).
Proof.
  induction registered as [|x rest IH]; [split; [discriminate|intros []]|].
  rewrite is_registered_cons. cbn [map In]. rewrite orb_true_iff, IH.
  unfold name_is. now rewrite String.eqb_eq.
Qed.

Lemma filter_filter {A} (p q : A -> bool) (l : list A) :
  List.filter p (List.filter q l) = List.filter (fun x => q x && p x) l.
Proof.
  induction l as [|x l IH]; [reflexivity|].
  cbn [List.filter]. destruct (q x); cbn [andb List.filter]; now rewrite IH.
Qed.

Lemma without_one (name : string) (registered : list Action) :
  without [name] registered
  = List.filter (fun a => negb (name_is name a)) registered.
Proof.
  unfold without. apply List.filter_ext. intros a. cbn [existsb].
  unfold name_is. now rewrite orb_false_r.
Qed.

Lemma without_cons (name : string) (names : list string) (registered : list Action) :
  without (name :: names) registered = without names (without [name] registered).
Proof.
  rewrite without_one. unfold without. rewrite filter_filter.
  apply List.filter_ext. intros a. cbn [existsb]. unfold name_is.
  now destruct (String.eqb (act_name a) name).
Qed.

Lemma without_absent (name : string) (registered : list Action) :
  is_registered registered name = false -> without [name] registered = registered.
Proof.
  rewrite without_one. induction registered as [|x rest IH]; [reflexivity|].
  rewrite is_registered_cons. intros Habs. apply orb_false_iff in Habs.
  destruct Habs as [Hx Hrest]. cbn [List.filter]. rewrite Hx. cbn [negb].
  now rewrite IH.
Qed.

Lemma without_names_subset (names : list string) (registered : list Action) :
  forall name, In name (map act_name (without names registered)) ->
               In name (map act_name registered) /\ ~ In name names.
Proof.
  intros name Hin. apply in_map_iff in Hin. destruct Hin as (a & <- & Ha).
  unfold without in Ha. apply List.filter_In in Ha. destruct Ha as [Ha Hkeep].
  split; [now apply in_map|].
  intros Hnames. apply negb_true_iff in Hkeep.
  assert (Hex : existsb (String.eqb (act_name a)) names = true)
    by (apply existsb_exists; exists (act_name a); split;
        [assumption|apply String.eqb_refl]).
  congruence.
Qed.

Lemma without_NoDup (names : list string) (registered : list Action) :
  List.NoDup (map act_name registered) ->
  List.NoDup (map act_name (without names registered)).
Proof.
  unfold without. induction registered as [|x rest IH]; intros Hnodup;
    [constructor|].
  cbn [map] in Hnodup. apply List.NoDup_cons_iff in Hnodup.
  destruct Hnodup as [Hnotin Hrest]. cbn [List.filter].
  destruct (negb (existsb (String.eqb (act_name x)) names)); [|now apply IH].
  cbn [map]. apply List.NoDup_cons_iff. split; [|now apply IH].
  intros Hin. apply Hnotin.
  now destruct (without_names_subset names rest (act_name x) Hin).
Qed.

Lemma without_other (name other : string) (registered : list Action) :
  other <> name ->
  is_registered (without [name] registered) other = is_registered registered other.
Proof.
  intros Hother. rewrite without_one.
  induction registered as [|x rest IH]; [reflexivity|].
  cbn [List.filter]. unfold name_is at 1.
  destruct (String.eqb_spec (act_name x) name) as [Hx|Hx]; cbn [negb].
  - rewrite is_registered_cons, IH.
    assert (Hno : name_is other x = false)
      by (unfold name_is; apply String.eqb_neq; congruence).
    now rewrite Hno.
  - now rewrite !is_registered_cons, IH.
Qed.

(** With one entry per name, removing the first entry of a name removes
    the name. *)
Lemma splice1_unique (registered : list Action) (name : string) :
  List.NoDup (map act_name registered) ->
  is_registered registered name = true ->
  splice1 registered (findIndex (name_is name) registered)
  = without [name] registered.
Proof.
  unfold splice1.
  induction registered as [|x rest IH]; intros Hnodup Hreg; [discriminate|].
  cbn [map] in Hnodup. apply List.NoDup_cons_iff in Hnodup.
  destruct Hnodup as [Hnotin Hrest]. rewrite is_registered_cons in Hreg.
  rewrite without_one. cbn [List.filter].
  destruct (name_is name x) eqn:Hx; cbn [negb].
  - rewrite findIndex_head by assumption.
    change (delete (Z.to_nat 0) (x :: rest)) with rest.
    rewrite <- without_one. symmetry. apply without_absent.
    destruct (is_registered rest name) eqn:Hin; [|reflexivity].
    apply is_registered_In in Hin. unfold name_is in Hx.
    apply String.eqb_eq in Hx. congruence.
  - cbn [orb] in Hreg. pose proof Hreg as Hfound.
    apply is_registered_findIndex in Hfound.
    rewrite findIndex_tail by assumption.
    pose proof (findIndex_range (name_is name) rest) as [Hno|Hrange];
      [contradiction|].
    replace (Z.to_nat (findIndex (name_is name) rest + 1))
      with (S (Z.to_nat (findIndex (name_is name) rest))) by lia.
    change (delete (S (Z.to_nat (findIndex (name_is name) rest))) (x :: rest))
      with (x :: delete (Z.to_nat (findIndex (name_is name) rest)) rest).
    f_equal. rewrite <- without_one. now apply IH.
Qed.

Lemma without_nil (registered : list Action) : without [] registered = registered.
Proof.
  unfold without. apply List.forallb_filter_id. apply List.forallb_forall.
  intros a _. reflexivity.
Qed.

(** The loop on names that are distinct and registered, in a registry with
    one entry per name. *)
Lemma unregister_loop_known (actionNames unknownNames : list string)
    (c : NeuroClientWrapper) :
  List.NoDup actionNames ->
  List.NoDup (map act_name (registeredActions c)) ->
  (forall n, In n actionNames -> is_registered (registeredActions c) n = true) ->
  unregister_loop actionNames unknownNames c
  = (Normal unknownNames,
     set_registeredActions (without actionNames (registeredActions c)) c).
Proof.
  revert c. induction actionNames as [|n rest IH]; intros c Hnames Hnodup Hreg.
  - cbn [unregister_loop]. rewrite without_nil. unfold ret. now destruct c.
  - apply List.NoDup_cons_iff in Hnames. destruct Hnames as [Hnotin Hrest].
    rewrite unregister_loop_cons.
    assert (Hn : is_registered (registeredActions c) n = true)
      by (apply Hreg; now left).
    pose proof Hn as Hfound. apply is_registered_findIndex in Hfound.
    destruct (Z.eqb_spec (findIndex (name_is n) (registeredActions c)) (-1));
      [contradiction|].
    rewrite splice1_unique by assumption.
    rewrite IH.
    + unfold set_registeredActions.
      cbn [registeredActions ws game url actionHandlers trace].
      now rewrite (without_cons n rest).
    + exact Hrest.
    + unfold set_registeredActions. cbn [registeredActions].
      now apply without_NoDup.
    + intros m Hm. unfold set_registeredActions. cbn [registeredActions].
      rewrite without_other; [apply Hreg; now right|].
      intros ->. contradiction.
Qed.

(** [unregisterActions] on such names: the removals, then the send. *)
Lemma unregisterActions_known (actionNames : list string) (c : NeuroClientWrapper) :
  List.NoDup actionNames ->
  List.NoDup (map act_name (registeredActions c)) ->
  (forall n, In n actionNames -> is_registered (registeredActions c) n = true) ->
  unregisterActions actionNames c
  = (let* g := get game in
     NeuroClient.sendMessage
       (mkOutgoingMessage "actions/unregister" g
          (Some (UnregisterActionsMessageData actionNames))))
      (set_registeredActions (without actionNames (registeredActions c)) c).
Proof.
  intros Hnames Hnodup Hreg. unfold unregisterActions. unfold bind at 1.
  now rewrite unregister_loop_known by assumption.
Qed.

(** X10. In a registry with one entry per name, unregistering distinct
    names that are all registered removes exactly the actions of those
    names and, on an open socket, sends one [actions/unregister] frame with
    the names; nothing is logged. *)
Theorem unregisterActions_known_names (actionNames : list string)
    (c : NeuroClientWrapper) :
  ws c = Some OPEN ->
  List.NoDup actionNames ->
  List.NoDup (map act_name (registeredActions c)) ->
  (forall n, In n actionNames -> is_registered (registeredActions c) n = true) ->
  unregisterActions actionNames c =
    (Normal tt,
     mkClient (ws c) (game c) (url c) (actionHandlers c)
       (without actionNames (registeredActions c))
       (trace c
        ++ [WsSend (mkOutgoingMessage "actions/unregister" (game c)
                      (Some (UnregisterActionsMessageData actionNames)))]))
  /\ (forall name,
        In name (map act_name (without actionNames (registeredActions c))) <->
        In name (map act_name (registeredActions c)) /\ ~ In name actionNames).
Proof.
  intros Hopen Hnames Hnodup Hreg. split.
  - rewrite unregisterActions_known by assumption.
    unfold bind, get. now rewrite sendMessage_open by exact Hopen.
  - intros name. split; [apply without_names_subset|].
    intros [Hin Hnot]. apply in_map_iff in Hin. destruct Hin as (a & <- & Ha).
    apply in_map. unfold without. apply List.filter_In. split; [exact Ha|].
    apply negb_true_iff.
    destruct (existsb (String.eqb (act_name a)) actionNames) eqn:Hex;
      [|reflexivity].
    apply existsb_exists in Hex. destruct Hex as (n & Hn & Heq).
    apply String.eqb_eq in Heq. congruence.
Qed.

(** The actions [a] and [b] registered, [b] unregistered. *)
Lemma unregisterActions_known_names_witness :
  let c := Demo.after [registerActions (Fresh [Demo.action_a; Demo.action_b])]
             Demo.opened in
  registeredActions (snd (unregisterActions ["b"] c)) = [Demo.action_a]
  /\ fst (unregisterActions ["b"] c) = Normal tt.
Proof.
  intros c.
  assert (Hnames : List.NoDup ["b"%string])
    by (constructor; [intros []|constructor]).
  assert (Hnodup : List.NoDup (map act_name (registeredActions c))).
  { cbn. constructor; [intros [E|[]]; discriminate|].
    constructor; [intros []|constructor]. }
  assert (Hreg : forall n, In n ["b"%string] ->
                           is_registered (registeredActions c) n = true)
    by (intros n [<-|[]]; reflexivity).
  destruct (unregisterActions_known_names ["b"] c eq_refl Hnames Hnodup Hreg)
    as [Hrun _].
  rewrite Hrun. split; reflexivity.
Defined.

Lemma NoDup_app_disjoint {A} (l k : list A) (x : A) :
  List.NoDup (l ++ k) -> In x l -> In x k -> False.
Proof.
  induction l as [|y l IH]; intros Hnodup Hl Hk; [destruct Hl|].
  cbn [app] in Hnodup. apply List.NoDup_cons_iff in Hnodup.
  destruct Hnodup as [Hnotin Hrest]. destruct Hl as [->|Hl].
  - apply Hnotin, in_or_app. now right.
  - now apply IH.
Qed.

(** X11. Registering a batch and then unregistering its names gives the
    registry back, when no name occurs twice among the registered actions
    and the batch; this holds on any socket. *)
Theorem register_then_unregister (actions : list Action) (c : NeuroClientWrapper) :
  List.NoDup (map act_name (registeredActions c ++ actions)) ->
  fst (unregisterActions (map act_name actions)
         (snd (registerActions (Fresh actions) c))) = Normal tt
  /\ registeredActions
       (snd (unregisterActions (map act_name actions)
               (snd (registerActions (Fresh actions) c))))
     = registeredActions c.
Proof.
  intros Hnodup.
  pose proof (registerActions_registry actions c) as Hregistry.
  set (c1 := snd (registerActions (Fresh actions) c)) in *.
  assert (Hnames : List.NoDup (map act_name actions))
    by (rewrite map_app in Hnodup; now apply List.NoDup_app_remove_l in Hnodup).
  assert (Hreg : forall n, In n (map act_name actions) ->
                           is_registered (registeredActions c1) n = true).
  { intros n Hn. apply is_registered_In. rewrite Hregistry, map_app.
    apply in_or_app. now right. }
  rewrite unregisterActions_known;
    [|assumption|now rewrite Hregistry|assumption].
  destruct (send_keeps_registry "actions/unregister"
              (Some (UnregisterActionsMessageData (map act_name actions)))
              (set_registeredActions
                 (without (map act_name actions) (registeredActions c1)) c1))
    as [Hnormal Hkept].
  split; [exact Hnormal|]. rewrite Hkept.
  unfold set_registeredActions. cbn [registeredActions]. rewrite Hregistry.
  unfold without. rewrite List.filter_app.
  rewrite map_app in Hnodup.
  assert (Hkeep : List.filter
                    (fun a => negb (existsb (String.eqb (act_name a))
                                      (map act_name actions)))
                    (registeredActions c) = registeredActions c).
  { apply List.forallb_filter_id. apply List.forallb_forall. intros a Ha.
    apply negb_true_iff.
    destruct (existsb (String.eqb (act_name a)) (map act_name actions)) eqn:Hex;
      [|reflexivity].
    apply existsb_exists in Hex. destruct Hex as (n & Hn & Heq).
    apply String.eqb_eq in Heq. subst n.
    exfalso. apply (NoDup_app_disjoint _ _ (act_name a) Hnodup);
      [now apply in_map|exact Hn]. }
  assert (Hdrop : List.filter
                    (fun a => negb (existsb (String.eqb (act_name a))
                                      (map act_name actions)))
                    actions = []).
  { destruct (List.filter _ actions) as [|a rest] eqn:Hfilter; [reflexivity|].
    assert (Hin : In a (a :: rest)) by now left.
    rewrite <- Hfilter in Hin. apply List.filter_In in Hin.
    destruct Hin as [Hin Hkeep']. apply negb_true_iff in Hkeep'.
    assert (Hex : existsb (String.eqb (act_name a)) (map act_name actions) = true)
      by (apply existsb_exists; exists (act_name a); split;
          [now apply in_map|apply String.eqb_refl]).
    congruence. }
  now rewrite Hkeep, Hdrop, app_nil_r.
Qed.

(** The registry holds [a]; [b] is registered and unregistered again. *)
Lemma register_then_unregister_witness :
  let c := Demo.after [registerActions (Fresh [Demo.action_a])] Demo.opened in
  registeredActions
    (snd (unregisterActions ["b"] (snd (registerActions (Fresh [Demo.action_b]) c))))
  = [Demo.action_a].
Proof.
  intros c.
  assert (Hnodup : List.NoDup (map act_name (registeredActions c ++ [Demo.action_b]))).
  { cbn. constructor; [intros [E|[]]; discriminate|].
    constructor; [intros []|constructor]. }
  destruct (register_then_unregister [Demo.action_b] c Hnodup) as [_ Hback].
  exact Hback.
Defined.

(** ** Force, results, context, reconnection *)



(** X13. [sendActionResult] never throws and leaves everything but the
    trace as it is.  It writes the warning about an empty message text for
    every result that is not a success, whether a text is given or not, and
    then sends the result on an open socket or reports the socket that is
    not open. *)
Theorem sendActionResult_effect (id : string) (success : bool)
    (messageText : option string) (c : NeuroClientWrapper) :
  NeuroClient.sendActionResult id success messageText c =
    (Normal tt,
     emit_all
       ((if success then [] else [empty_messageText_warning])
        ++ [match ws c with
            | Some OPEN =>
                WsSend (mkOutgoingMessage "action/result" (game c)
                          (Some (ActionResultMessageData id success messageText)))
            | Some r =>
                Console ERROR
                  ["[NeuroClient] WebSocket is not open. Ready state:";
                   readyState_value r]
            | None =>
                Console ERROR
                  ["[NeuroClient] WebSocket is not open. Ready state:";
                   "No WebSocket instance"]
            end]) c).
Proof.
  unfold NeuroClient.sendActionResult, NeuroClient.sendMessage, emit_all,
    empty_messageText_warning.
  destruct c as [[[]|] g u hs rs t]; destruct success; run;
    rewrite <- ?app_assoc; reflexivity.
Qed.

(** X14. The wrapper logs at DEBUG and sends the [silent] it was given, so
    that a call without it sends a context frame without [silent]; the
    method it overrides sends [false] for the same call. *)
Theorem sendContext_silent_as_given (c : NeuroClientWrapper) (messageText : string)
    (silent : option bool) :
  ws c = Some OPEN ->
  sendContext messageText silent c =
    (Normal tt,
     emit_all
       [Logged DEBUG (if default false silent
                      then "Sending silent context to Neuro"
                      else "Sending context to Neuro");
        WsSend (mkOutgoingMessage "context" (game c)
                  (Some (ContextMessageData messageText silent)))] c)
  /\ BaseClient.sendContext messageText silent c =
       (Normal tt,
        emit_all
          [WsSend (mkOutgoingMessage "context" (game c)
                     (Some (ContextMessageData messageText
                              (Some (default false silent)))))] c).
Proof.
  intros Hopen. destruct c as [w g u hs rs t]. cbn in Hopen. subst w.
  unfold sendContext, BaseClient.sendContext, NeuroClient.sendMessage, emit_all.
  split; destruct silent as [[|]|]; run; rewrite <- ?app_assoc; reflexivity.
Qed.

(** A context without [silent]. *)
Lemma sendContext_silent_as_given_witness :
  frames_of (trace (snd (sendContext "Game started." None Demo.opened)))
  = frames_of (trace Demo.opened)
    ++ [mkOutgoingMessage "context" "Guess the Number"
          (Some (ContextMessageData "Game started." None))]
  /\ frames_of (trace (snd (BaseClient.sendContext "Game started." None Demo.opened)))
     = frames_of (trace Demo.opened)
       ++ [mkOutgoingMessage "context" "Guess the Number"
             (Some (ContextMessageData "Game started." (Some false)))].
Proof.
  destruct (sendContext_silent_as_given Demo.opened "Game started." None eq_refl)
    as [Hwrapper Hbase].
  rewrite Hwrapper, Hbase. split; reflexivity.
Defined.

Section Reconnection.

Context `{Externals}.


End Reconnection.

(** ** Incoming frames *)

Section Incoming.

Context `{Externals}.


(** The handlers of a client of the base class after calls of [onAction]. *)
Lemma onAction_handlers (ks : list nat) (c : NeuroClientWrapper) :
  actionHandlers
    (fold_left (fun c k => snd (NeuroClient.onAction (HostHandler k) c)) ks c)
  = actionHandlers c ++ map HostHandler ks.
Proof.
  revert c. induction ks as [|k ks IH]; intros c; [cbn; now rewrite app_nil_r|].
  cbn [fold_left]. rewrite IH. cbn. now rewrite <- app_assoc.
Qed.

Lemma host_handlers_all_called (ks : list nat) :
  existsb is_detached (map HostHandler ks) = false
  /\ called_handlers (map HostHandler ks) = map HostHandler ks.
Proof.
  induction ks as [|k ks [IHd IHc]]; [now split|].
  cbn. now rewrite IHd, IHc.
Qed.

(** X17. On a client of the base class, a request whose data is absent,
    empty or parses is handed to every callback given to [onAction], once
    each and in the order they were given, with the id, the name and the
    parsed parameters; the client itself sends no result.  Without any
    callback it only warns on the console, and the request stays
    unanswered. *)
Theorem handlers_called_in_order (url g : string) (ks : list nat)
    (data : ActionMessageData) (actionParams : JSON) :
  parse_actionParams data = inl actionParams ->
  BaseClient.handleActionMessage data
    (fold_left (fun c k => snd (NeuroClient.onAction (HostHandler k) c)) ks
       (BaseClient.constructor url g))
  = (Normal tt,
     emit_all
       (match ks with
        | [] => [Console WARN ["[NeuroClient] No action handlers registered."]]
        | _ => map (fun k => Invoked (HostHandler k)
                               (mkActionData (amd_id data) (amd_name data)
                                  actionParams)) ks
        end)
       (fold_left (fun c k => snd (NeuroClient.onAction (HostHandler k) c)) ks
          (BaseClient.constructor url g))).
Proof.
  intros Hparse. unfold BaseClient.handleActionMessage. rewrite Hparse.
  set (c := fold_left (fun c k => snd (NeuroClient.onAction (HostHandler k) c)) ks
              (BaseClient.constructor url g)).
  assert (Hhandlers : actionHandlers c = map HostHandler ks)
    by (unfold c; now rewrite onAction_handlers).
  unfold bind, get. rewrite Hhandlers.
  destruct ks as [|k ks]; [reflexivity|].
  cbn [map length Nat.ltb Nat.leb].
  change (HostHandler k :: map HostHandler ks) with (map HostHandler (k :: ks)).
  rewrite (for_of_call_handler 0 (map HostHandler (k :: ks))).
  destruct (host_handlers_all_called (k :: ks)) as [Hnone Hall].
  rewrite Hnone, Hall, map_map. reflexivity.
Qed.

End Incoming.


(** Two callbacks and the request of the example page with number 5. *)
Lemma handlers_called_in_order_witness :
  invoked_of
    (trace
       (snd (@BaseClient.handleActionMessage Demo.externals
               (mkActionMessageData "1" "guess_number" (Some Demo.data_number_5))
               (fold_left (fun c k => snd (NeuroClient.onAction (HostHandler k) c))
                  [0%nat; 1%nat]
                  (BaseClient.constructor "ws://localhost:8000" "Guess the Number")))))
  = [(HostHandler 0,
      mkActionData "1" "guess_number" (JObj [("number"%string, JNum 5)]));
     (HostHandler 1,
      mkActionData "1" "guess_number" (JObj [("number"%string, JNum 5)]))].
Proof.
  rewrite (@handlers_called_in_order Demo.externals "ws://localhost:8000"
             "Guess the Number" [0%nat; 1%nat]
             (mkActionMessageData "1" "guess_number" (Some Demo.data_number_5))
             (JObj [("number"%string, JNum 5)]) eq_refl).
  reflexivity.
Defined.

(** X18. [sendContext] and [forceActions] of the class [_wrapper] call
    themselves and nothing else: whatever the fuel, they give no result and
    leave the client as it is, so that no frame is ever sent by them. *)
Theorem draft_wrapper_never_returns (fuel : nat) (context : string)
    (silent : option bool) (query : string) (action_names : list string)
    (state : option string) (ephemeral_context : option bool)
    (priority : option ActionForcePriorityEnum) (c : NeuroClientWrapper) :
  DraftWrapper.sendContext fuel context silent c = (OutOfFuel, c)
  /\ DraftWrapper.forceActions fuel query action_names state ephemeral_context
       priority c = (OutOfFuel, c).
Proof.
  split.
  - revert silent. induction fuel as [|fuel IH]; intros silent; [reflexivity|].
    cbn [DraftWrapper.sendContext]. apply IH.
  - revert ephemeral_context priority.
    induction fuel as [|fuel IH]; intros ephemeral_context priority;
      [reflexivity|].
    cbn [DraftWrapper.forceActions]. apply IH.
Qed.

(** ** The list of validation errors *)




Section AtMostOne.

Context `{Externals}.

Lemma sendActionResult_frames (id : string) (success : bool) (message : string)
    (c : NeuroClientWrapper) :
  exists events,
    snd (NeuroClient.sendActionResult id success (Some message) c)
    = emit_all events c
    /\ (frames_of events = []
        \/ frames_of events = [result_frame (game c) id success message]).
Proof.
  unfold NeuroClient.sendActionResult, NeuroClient.sendMessage, emit_all,
    result_frame.
  destruct c as [[[]|] g u hs rs t]; destruct success; run;
    rewrite <- ?app_assoc; eexists; (split; [reflexivity|]); cbn; auto.
Qed.

Lemma frames_of_invoked (handlers : list ActionHandler) (actionData : ActionData) :
  frames_of (map (fun h => Invoked h actionData) handlers) = [].
Proof. induction handlers as [|h hs IH]; [reflexivity|exact IH]. Qed.

(** X20. A request makes the wrapper send at most one frame, and that
    frame is an [action/result] for the id of the request; the registry is
    as it was afterwards, whatever the request. *)
Theorem handleActionMessage_answers_at_most_once (data : ActionMessageData)
    (c : NeuroClientWrapper) :
  registeredActions (snd (handleActionMessage data c)) = registeredActions c
  /\ exists events,
       trace (snd (handleActionMessage data c)) = trace c ++ events
       /\ (frames_of events = []
           \/ exists success message,
                frames_of events
                = [result_frame (game c) (amd_id data) success message]).
Proof.
  set (Q := fun c' : NeuroClientWrapper =>
         registeredActions c' = registeredActions c
         /\ exists events,
              trace c' = trace c ++ events
              /\ (frames_of events = []
                  \/ exists success message,
                       frames_of events
                       = [result_frame (game c) (amd_id data) success message])).
  change (Q (snd (handleActionMessage data c))).
  assert (Hresult : forall success message,
    Q (snd (NeuroClient.sendActionResult (amd_id data) success (Some message) c))).
  { intros success message.
    destruct (sendActionResult_frames (amd_id data) success message c)
      as (events & -> & Hframes).
    split; [reflexivity|]. exists events. split; [reflexivity|].
    destruct Hframes as [Hnone|Hone]; [now left|right; eauto]. }
  unfold handleActionMessage. rewrite handleActionMessage_fuel_S.
  destruct (parse_actionParams data) as [actionParams|error_message].
  - unfold dispatch_parsed, on_this. unfold bind at 1. unfold get at 1.
    assert (Hloop :
      Q (snd ((let* handlers := get actionHandlers in
               if (0 <? length handlers)%nat
               then for_of handlers
                      (fun handler =>
                         call_handler 1 handler
                           (mkActionData (amd_id data) (amd_name data) actionParams))
               else loggingHandler
                      "[NeuroClientWrapper] No action handlers registered." ERROR) c))).
    { unfold bind, get.
      destruct (0 <? length (actionHandlers c))%nat.
      - rewrite for_of_call_handler. split; [reflexivity|].
        eexists. split; [reflexivity|]. left. apply frames_of_invoked.
      - split; [reflexivity|]. eexists. split; [reflexivity|]. now left. }
    destruct (List.find (name_is (amd_name data)) (registeredActions c))
      as [action|]; [|apply Hresult].
    destruct (match act_schema action with
              | Some schema =>
                  if negb (length (Object_keys schema) =? 0)%nat
                  then Some (validate actionParams schema)
                  else None
              | None => None
              end) as [[[|] errors]|]; [exact Hloop|apply Hresult|exact Hloop].
  - unfold on_this, bind.
    destruct (Hresult false (invalid_data_message error_message))
      as (Hregistry & events & Htrace & Hframes).
    destruct (NeuroClient.sendActionResult (amd_id data) false
                (Some (invalid_data_message error_message)) c)
      as [[[]| |] c1] eqn:Hsend; cbn [snd] in *;
      try (split; [exact Hregistry|]; exists events; now split).
    unfold console, modify. cbn [snd]. unfold emit.
    split; [exact Hregistry|]. cbn [trace].
    exists (events ++ [Console ERROR
                         [("[NeuroClientWrapper] "
                           ++ invalid_data_message error_message)%string]]).
    split; [now rewrite Htrace, app_assoc|].
    rewrite frames_of_app. cbn. now rewrite app_nil_r.
Qed.

End AtMostOne.
